(** * AUES Squarespace sync: the scheduled-dispatch-with-retry engine

    A shallow embedding of the sync pinger (the members/orders version of
    [index.ts]): the backoff-retry executor [postWithRetry], the two
    schedulers [syncOrders] and [syncMembers], the start-up configuration
    checks and the process-level handlers.

    Conventions of the embedding.
    - JavaScript numbers are IEEE-754 binary64 values; they are modelled by
      [spec_float] with precision 53 and maximal exponent 1024, and the
      operations [*] and [>] by [SFmul] and [SFltb].  The attempt number,
      the failure counter and the back-off delay only ever hold small
      integers, on which binary64 arithmetic is exact; they are modelled
      in [Z].
    - The network is an oracle [net : Z -> FetchOutcome] that gives, for
      the attempt number, what [await fetch(...)] produced.
    - Console output, requests, sleeps and timers are recorded, in order,
      in an explicit trace of effects.
    - The delay of a timer is the number handed to [setTimeout] or
      [setInterval]; what the runtime makes of it is outside the model. *)

From Stdlib Require Import ZArith List String Bool Lia.
From Stdlib Require Import Floats.SpecFloat.
Import ListNotations.
Set Warnings "-register-all".
Local Open Scope string_scope.
Local Open Scope Z_scope.
Local Open Scope list_scope.

(** ** JavaScript numbers and JSON values *)

Module Js.

(** A JavaScript number. *)
Definition num := spec_float.

Definition prec : Z := 53.
Definition emax : Z := 1024.

(** The number denoted by an integer literal. *)
Definition lit (z : Z) : num := binary_normalize prec emax z 0 false.

(** [x * y] on numbers. *)
Definition mul (x y : num) : num := SFmul prec emax x y.

(** [x > y] on numbers: false as soon as one side is NaN. *)
Definition gtb (x y : num) : bool := SFltb y x.

Definition is_nan (x : num) : bool :=
  match x with S754_nan => true | _ => false end.

(** What [response.json()] can resolve to, and what a field of such a
    value can hold.  An object is the list of its own properties. *)
Inductive val :=
| Null
| Bool (b : bool)
| Num (x : num)
| Str (s : string)
| Arr (items : list val)
| Obj (props : list (string * val)).

(** ToBoolean. *)
Definition truthy (v : val) : bool :=
  match v with
  | Null => false
  | Bool b => b
  | Num (S754_zero _) => false
  | Num S754_nan => false
  | Num _ => true
  | Str s => negb (String.eqb s "")
  | Arr _ => true
  | Obj _ => true
  end.

Fixpoint assoc (k : string) (props : list (string * val)) : option val :=
  match props with
  | [] => None
  | (k', v) :: rest => if String.eqb k k' then Some v else assoc k rest
  end.

(** [v.k] for a non-index, non-builtin property name [k] on a truthy
    value [v]: only an object can carry it; [None] is [undefined]. *)
Definition get (v : val) (k : string) : option val :=
  match v with
  | Obj props => assoc k props
  | _ => None
  end.

End Js.

(** ** Constants of the program *)

Definition MAX_RETRIES : Z := 3.
Definition FETCH_TIMEOUT_MS : Z := 30000.
Definition CONSECUTIVE_FAILURE_THRESHOLD : Z := 5.
Definition ORDERS_INTERVAL : Js.num :=
  Js.mul (Js.mul (Js.lit 1000) (Js.lit 60)) (Js.lit 10).
Definition DEFAULT_MEMBERS_INTERVAL : Js.num :=
  Js.mul (Js.mul (Js.lit 1000) (Js.lit 60)) (Js.lit 5).
Definition NON_RETRYABLE_STATUSES : list Z := [400; 401; 403; 429].


(** ** The network, as [postWithRetry] sees it *)

(** [await fetch(...)] either rejects (the request never got an answer, or
    [AbortSignal.timeout] fired) or resolves to a response. *)
Inductive RejectReason :=
| NetworkError (message : string)
| TimedOut.

(** The fields of a response the code reads.  [json] is what
    [await response.json()] gives: [None] when it rejects (no body, or a
    body that is not JSON). *)
Record Response := {
  ok : bool;
  status : Z;
  statusText : string;
  json : option Js.val
}.

Inductive FetchOutcome :=
| Rejects (reason : RejectReason)
| Resolves (r : Response).

(** What the [catch] block receives. *)
Inductive Thrown :=
| FetchRejected (reason : RejectReason)
| StatusError (status : Z) (statusText : string)
| JsonRejected.

(** ** Effects *)

(** The request of one try. *)
Record Request := {
  req_url : string;
  req_method : string;
  req_content_type : string;
  req_authorization : string;
  req_message : string;
  req_timeout : Z
}.

(** The lines written to the console, by the template that produces them. *)
Inductive LogLine :=
| NotRetryableLine (label : string) (status : Z) (statusText : string)
| ExhaustedLine (label : string) (attempts : Z) (err : Thrown)
| WarningLine (label : string) (failures : Z)
| RetryLine (label : string) (attempt : Z) (attempts : Z) (seconds : Z)
            (err : Thrown)
| OrdersSyncedLine
| MembersSyncedLine (next_ms : Js.num).

Inductive Effect :=
| Fetch (rq : Request)
| Sleep (ms : Z)
| ConsoleError (l : LogLine)
| ConsoleLog (l : LogLine)
| SetTimeout (ms : Js.num).

(** ** The backoff-retry executor *)

Record SyncResult := {
  res_ok : bool;
  res_data : option Js.val
}.

(** The failure counter of the task ([consecutiveFailures.count]) and the
    effects performed so far. *)
Record St := {
  count : Z;
  trace : list Effect
}.

Definition emit (e : Effect) (st : St) : St :=
  {| count := count st; trace := trace st ++ [e] |}.

Definition set_count (c : Z) (st : St) : St :=
  {| count := c; trace := trace st |}.

Definition failure : SyncResult := {| res_ok := false; res_data := None |}.

Definition non_retryable (s : Z) : bool :=
  existsb (Z.eqb s) NON_RETRYABLE_STATUSES.

Definition request (secret url label : string) : Request :=
  {| req_url := url;
     req_method := "POST";
     req_content_type := "application/json";
     req_authorization := ("Bearer " ++ secret)%string;
     req_message := ("Sync " ++ label)%string;
     req_timeout := FETCH_TIMEOUT_MS |}.

(** The [catch] block of try [attempt]; [again] is the rest of the loop. *)
Definition on_catch (label : string) (attempt : Z) (err : Thrown) (st : St)
    (again : St -> option (SyncResult * St)) : option (SyncResult * St) :=
  if attempt =? MAX_RETRIES then
    let st := set_count (count st + 1) st in
    let st := emit (ConsoleError (ExhaustedLine label MAX_RETRIES err)) st in
    let st :=
      if count st >=? CONSECUTIVE_FAILURE_THRESHOLD
      then emit (ConsoleError (WarningLine label (count st))) st
      else st in
    Some (failure, st)
  else
    let delay := 2 ^ attempt * 1000 in
    let st :=
      emit (ConsoleError
              (RetryLine label attempt MAX_RETRIES (delay / 1000) err)) st in
    let st := emit (Sleep delay) st in
    again st.

(** The [for] loop, from [attempt] on.  [fuel] bounds the number of
    iterations; [None] means the bound was too small. *)
Fixpoint loop (secret url label : string) (net : Z -> FetchOutcome)
    (fuel : nat) (attempt : Z) (st : St) : option (SyncResult * St) :=
  match fuel with
  | O => None
  | S fuel' =>
    if attempt <=? MAX_RETRIES then
      let again := loop secret url label net fuel' (attempt + 1) in
      let st := emit (Fetch (request secret url label)) st in
      match net attempt with
      | Rejects reason => on_catch label attempt (FetchRejected reason) st again
      | Resolves r =>
        if negb (ok r) then
          if non_retryable (status r) then
            let st := set_count (count st + 1) st in
            let st :=
              emit (ConsoleError
                      (NotRetryableLine label (status r) (statusText r))) st in
            Some (failure, st)
          else
            on_catch label attempt (StatusError (status r) (statusText r))
                     st again
        else
          let st := set_count 0 st in
          match json r with
          | Some data => Some ({| res_ok := true; res_data := Some data |}, st)
          | None => on_catch label attempt JsonRejected st again
          end
      end
    else Some (failure, st)
  end.

Definition postWithRetry (secret url label : string)
    (net : Z -> FetchOutcome) (consecutiveFailures : Z)
    : option (SyncResult * St) :=
  loop secret url label net (S (Z.to_nat MAX_RETRIES)) 1
       {| count := consecutiveFailures; trace := [] |}.

(** *** Vocabulary for statements about a run *)

(** The error a try ends with, when it ends in the [catch] block. *)
Definition caught (o : FetchOutcome) : option Thrown :=
  match o with
  | Rejects reason => Some (FetchRejected reason)
  | Resolves r =>
    if negb (ok r) then
      if non_retryable (status r) then None
      else Some (StatusError (status r) (statusText r))
    else
      match json r with
      | Some _ => None
      | None => Some JsonRejected
      end
  end.

(** A retryable failing outcome: no answer (network error or timeout) or a
    failing status outside the non-retryable set. *)
Definition retryable_failure (o : FetchOutcome) : bool :=
  match o with
  | Rejects _ => true
  | Resolves r => negb (ok r) && negb (non_retryable (status r))
  end.

(** The counter after a try that ended in the [catch] block: an answer
    with a successful status had already reset it. *)
Definition count_after_try (o : FetchOutcome) (c : Z) : Z :=
  match o with
  | Resolves r => if ok r then 0 else c
  | Rejects _ => c
  end.

(** The state in which try [n + 1] starts, when the tries [1 .. n] all
    ended in the [catch] block and none of them was the last one. *)
Fixpoint entering (secret url label : string) (net : Z -> FetchOutcome)
    (n : nat) (c : Z) : St :=
  match n with
  | O => {| count := c; trace := [] |}
  | S n' =>
    let st := entering secret url label net n' c in
    let k := Z.of_nat n in
    match caught (net k) with
    | Some err =>
      {| count := count_after_try (net k) (count st);
         trace := trace st ++
                  [Fetch (request secret url label);
                   ConsoleError (RetryLine label k MAX_RETRIES (2 ^ k) err);
                   Sleep (2 ^ k * 1000)] |}
    | None => st
    end
  end.

(** Try [k] is made: every earlier try ended in the [catch] block. *)
Definition made (net : Z -> FetchOutcome) (k : Z) : Prop :=
  forall j, 1 <= j < k -> caught (net j) <> None.

(** No answer with a successful status comes without a body that parses. *)
Definition bodies_parse (net : Z -> FetchOutcome) : Prop :=
  forall j r, net j = Resolves r -> ok r = true -> json r <> None.

Definition is_fetch (e : Effect) : bool :=
  match e with Fetch _ => true | _ => false end.

Definition is_sleep (e : Effect) : bool :=
  match e with Sleep _ => true | _ => false end.

Definition is_warning (e : Effect) : bool :=
  match e with ConsoleError (WarningLine _ _) => true | _ => false end.

(** Number of requests sent in a trace. *)
Definition requests (tr : list Effect) : nat := List.length (filter is_fetch tr).

(** Number of waits in a trace. *)
Definition waits (tr : list Effect) : nat := List.length (filter is_sleep tr).

(** ** The schedulers *)

(** [syncOrders]: one run of the executor, and a line on success.  The
    result is the new value of [ordersFailures.count] with the effects. *)
Definition syncOrders (secret url : string) (net : Z -> FetchOutcome)
    (ordersFailures : Z) : option St :=
  match postWithRetry secret url "orders" net ordersFailures with
  | Some (result, st) =>
    Some (if res_ok result then emit (ConsoleLog OrdersSyncedLine) st else st)
  | None => None
  end.

(** [result.ok && result.data]: [Some data] when the branch is taken. *)
Definition usable_data (result : SyncResult) : option Js.val :=
  if res_ok result then
    match res_data result with
    | Some data => if Js.truthy data then Some data else None
    | None => None
    end
  else None.

(** The value of [nextInterval] when [setTimeout] is reached. *)
Definition nextInterval (result : SyncResult) : Js.num :=
  match usable_data result with
  | Some data =>
    match Js.get data "nextCheckInSeconds" with
    | Some (Js.Num nextCheckInSeconds) =>
      if Js.gtb nextCheckInSeconds (Js.lit 0)
      then Js.mul nextCheckInSeconds (Js.lit 1000)
      else DEFAULT_MEMBERS_INTERVAL
    | _ => DEFAULT_MEMBERS_INTERVAL
    end
  | None => DEFAULT_MEMBERS_INTERVAL
  end.

(** [syncMembers]: one run of the executor, then the timer for the next
    invocation is armed with [nextInterval]. *)
Definition syncMembers (secret url : string) (net : Z -> FetchOutcome)
    (membersFailures : Z) : option St :=
  match postWithRetry secret url "members" net membersFailures with
  | Some (result, st) =>
    let next := nextInterval result in
    let st :=
      match usable_data result with
      | Some _ => emit (ConsoleLog (MembersSyncedLine next)) st
      | None => st
      end in
    Some (emit (SetTimeout next) st)
  | None => None
  end.

(** The delay handed to [setTimeout] by an invocation. *)
Definition scheduled (st : St) : option Js.num :=
  match last (trace st) (Sleep 0) with
  | SetTimeout ms => Some ms
  | _ => None
  end.

(** ** The process: start-up, timers and handlers *)

(** The environment variables the program reads; [None] is [undefined]. *)
Record Env := {
  env_DASHBOARD_URL : option string;
  env_MEMBERS_URL : option string;
  env_CRON_SECRET : option string
}.

(** [!v] for a variable of the environment. *)
Definition not_set (v : option string) : bool :=
  match v with
  | None => true
  | Some s => String.eqb s ""
  end.

Inductive Task := Orders | Members.

Inductive Signal := SIGINT | SIGTERM.

Definition signal_name (s : Signal) : string :=
  match s with SIGINT => "SIGINT" | SIGTERM => "SIGTERM" end.

(** What the process does, in order. *)
Inductive ProcEffect :=
| PError (message : string)
| PLog (message : string)
| PExit (code : Z)
| PSetInterval (t : Task) (id : nat) (ms : Js.num)
| PSetTimeout (t : Task) (id : nat) (ms : Js.num)
| PInvoke (t : Task)
| PClearInterval (id : nat)
| PClearTimeout (id : option nat).

(** The process: the scheduler timers that are armed, the two variables
    that hold timer identifiers, whether a [syncMembers] invocation is in
    progress, the exit code once the process has exited, and the effects
    so far. *)
Record Proc := {
  timers : list nat;
  ordersIntervalId : nat;
  membersTimeoutId : option nat;
  members_running : bool;
  next_id : nat;
  exit_code : option Z;
  effects : list ProcEffect
}.

Definition exited (code : Z) (messages : list ProcEffect) : Proc :=
  {| timers := []; ordersIntervalId := 0%nat; membersTimeoutId := None;
     members_running := false; next_id := 0; exit_code := Some code;
     effects := messages ++ [PExit code] |}.

(** The top level of the script, up to the end of its first turn. *)
Definition startup (env : Env) : Proc :=
  if not_set (env_CRON_SECRET env) then
    exited 1 [PError "CRON_SECRET is not set. Please set it in the environment variables."]
  else if not_set (env_DASHBOARD_URL env) then
    exited 1 [PError "DASHBOARD_URL is not set. Please set it in the environment variables."]
  else if not_set (env_MEMBERS_URL env) then
    exited 1 [PError "MEMBERS_URL is not set. Please set it in the environment variables."]
  else
    {| timers := [0%nat]; ordersIntervalId := 0%nat;
       membersTimeoutId := None; members_running := true;
       next_id := 1; exit_code := None;
       effects := [PSetInterval Orders 0 ORDERS_INTERVAL;
                   PInvoke Orders; PInvoke Members] |}.

Definition cancel (id : option nat) (ts : list nat) : list nat :=
  match id with
  | Some i => remove Nat.eq_dec i ts
  | None => ts
  end.

(** [shutdown(signal)]. *)
Definition shutdown (s : Signal) (p : Proc) : Proc :=
  {| timers := cancel (membersTimeoutId p)
                 (remove Nat.eq_dec (ordersIntervalId p) (timers p));
     ordersIntervalId := ordersIntervalId p;
     membersTimeoutId := membersTimeoutId p;
     members_running := members_running p;
     next_id := next_id p;
     exit_code := Some 0;
     effects := effects p ++
       [PLog ("Received " ++ signal_name s ++ ", shutting down...")%string;
        PClearInterval (ordersIntervalId p);
        PClearTimeout (membersTimeoutId p);
        PExit 0] |}.

(** The handlers of [unhandledRejection] and [uncaughtException]. *)
Definition fatal (message : string) (p : Proc) : Proc :=
  {| timers := timers p;
     ordersIntervalId := ordersIntervalId p;
     membersTimeoutId := membersTimeoutId p;
     members_running := members_running p;
     next_id := next_id p;
     exit_code := Some 1;
     effects := effects p ++ [PError message; PExit 1] |}.

(** What can happen to the running process. *)
Inductive ProcEvent :=
| EvSignal (s : Signal)
| EvUnhandledRejection (reason : string)
| EvUncaughtException (error : string)
| EvOrdersTick
| EvMembersTimer
| EvMembersDone (next : Js.num).

Definition has_timer (id : nat) (ts : list nat) : bool :=
  existsb (Nat.eqb id) ts.

(** One turn of the event loop.  An event that cannot happen in the state
    (the process has exited, the timer is not armed, no invocation is in
    progress) leaves it as it is. *)
Definition step (p : Proc) (ev : ProcEvent) : Proc :=
  match exit_code p with
  | Some _ => p
  | None =>
    match ev with
    | EvSignal s => shutdown s p
    | EvUnhandledRejection reason =>
      fatal ("Unhandled promise rejection: " ++ reason)%string p
    | EvUncaughtException error =>
      fatal ("Uncaught exception: " ++ error)%string p
    | EvOrdersTick =>
      if has_timer (ordersIntervalId p) (timers p) then
        {| timers := timers p;
           ordersIntervalId := ordersIntervalId p;
           membersTimeoutId := membersTimeoutId p;
           members_running := members_running p;
           next_id := next_id p;
           exit_code := None;
           effects := effects p ++ [PInvoke Orders] |}
      else p
    | EvMembersTimer =>
      match membersTimeoutId p with
      | Some i =>
        if has_timer i (timers p) then
          {| timers := remove Nat.eq_dec i (timers p);
             ordersIntervalId := ordersIntervalId p;
             membersTimeoutId := membersTimeoutId p;
             members_running := true;
             next_id := next_id p;
             exit_code := None;
             effects := effects p ++ [PInvoke Members] |}
        else p
      | None => p
      end
    | EvMembersDone next =>
      if members_running p then
        {| timers := next_id p :: timers p;
           ordersIntervalId := ordersIntervalId p;
           membersTimeoutId := Some (next_id p);
           members_running := false;
           next_id := S (next_id p);
           exit_code := None;
           effects := effects p ++ [PSetTimeout Members (next_id p) next] |}
      else p
    end
  end.

Definition run (p : Proc) (evs : list ProcEvent) : Proc :=
  fold_left step evs p.

Definition is_invoke (e : ProcEffect) : bool :=
  match e with PInvoke _ => true | _ => false end.

Definition is_timer_start (e : ProcEffect) : bool :=
  match e with
  | PSetInterval _ _ _ | PSetTimeout _ _ _ => true
  | _ => false
  end.

(** Every configuration value is present. *)
Definition configured (env : Env) : bool :=
  negb (not_set (env_CRON_SECRET env))
  && negb (not_set (env_DASHBOARD_URL env))
  && negb (not_set (env_MEMBERS_URL env)).

(** Every armed scheduler timer is held by one of the two variables: it
    is the interval of the orders task, or the pending time-out of the
    members task, of which no invocation is then in progress. *)
Definition timers_tracked (p : Proc) : Prop :=
  forall t, In t (timers p) ->
    t = ordersIntervalId p \/
    (members_running p = false /\ membersTimeoutId p = Some t).

(** The configuration values, by the name the messages give them. *)
Definition required (env : Env) : list (string * option string) :=
  [("CRON_SECRET", env_CRON_SECRET env);
   ("DASHBOARD_URL", env_DASHBOARD_URL env);
   ("MEMBERS_URL", env_MEMBERS_URL env)].

(** ** Sample inputs *)

Definition resp500 : Response :=
  {| ok := false; status := 500; statusText := "Internal Server Error";
     json := None |}.

Definition resp401 : Response :=
  {| ok := false; status := 401; statusText := "Unauthorized";
     json := None |}.

(** A successful status with a body that parses to [data]. *)
Definition resp200 (data : Js.val) : Response :=
  {| ok := true; status := 200; statusText := "OK"; json := Some data |}.

(** A successful status with no body, or with a body that is not JSON. *)
Definition resp200_unparsable : Response :=
  {| ok := true; status := 200; statusText := "OK"; json := None |}.

(** Every try gets the same outcome. *)
Definition always (o : FetchOutcome) : Z -> FetchOutcome := fun _ => o.

(** The tries get the outcomes of the list, in order, and [o] after it. *)
Definition script (os : list FetchOutcome) (o : FetchOutcome)
    : Z -> FetchOutcome :=
  fun k => nth (Z.to_nat (k - 1)) os o.

(** ** Vocabulary for whole runs and for sequences of invocations *)

(** The try that decides a run, searched from try [k] with [n] tries to
    spare: the first one that does not end in the [catch] block. *)
Fixpoint decisive_from (net : Z -> FetchOutcome) (n : nat) (k : Z) : Z :=
  match n with
  | O => k
  | S n' =>
    match caught (net k) with
    | None => k
    | Some _ => decisive_from net n' (k + 1)
    end
  end.

(** The try that decides a run: the first one that does not end in the
    [catch] block, or the last try. *)
Definition decisive (net : Z -> FetchOutcome) : Z :=
  decisive_from net (Z.to_nat (MAX_RETRIES - 1)) 1.

(** The waits of a trace, in order, in milliseconds. *)
Fixpoint sleeps (tr : list Effect) : list Z :=
  match tr with
  | [] => []
  | Sleep ms :: rest => ms :: sleeps rest
  | _ :: rest => sleeps rest
  end.

(** The time a trace can take at most: the time-out of each request and
    the length of each wait. *)
Fixpoint budget (tr : list Effect) : Z :=
  match tr with
  | [] => 0
  | Fetch rq :: rest => req_timeout rq + budget rest
  | Sleep ms :: rest => ms + budget rest
  | _ :: rest => budget rest
  end.

Definition is_set_timeout (e : Effect) : bool :=
  match e with SetTimeout _ => true | _ => false end.

Definition is_synced_line (e : Effect) : bool :=
  match e with
  | ConsoleLog OrdersSyncedLine | ConsoleLog (MembersSyncedLine _) => true
  | _ => false
  end.

(** Every try of the sequence is a retryable failure. *)
Definition all_retryable (net : Z -> FetchOutcome) : Prop :=
  forall j, 1 <= j <= MAX_RETRIES -> retryable_failure (net j) = true.

(** The invocations of [syncOrders] that the interval starts, one after
    the other, on the shared [ordersFailures]: the counter is handed from
    each invocation to the next, and the effects follow each other. *)
Fixpoint orders_cycles (secret url : string) (nets : list (Z -> FetchOutcome))
    (ordersFailures : Z) (done : list Effect) : option St :=
  match nets with
  | [] => Some {| count := ordersFailures; trace := done |}
  | net :: rest =>
    match syncOrders secret url net ordersFailures with
    | Some st =>
      orders_cycles secret url rest (count st) (done ++ trace st)
    | None => None
    end
  end.

(** ** The process: what the timers hold *)

Definition is_members_invoke (e : ProcEffect) : bool :=
  match e with PInvoke Members => true | _ => false end.

Definition is_members_timeout (e : ProcEffect) : bool :=
  match e with PSetTimeout Members _ _ => true | _ => false end.

(** The state of the two schedulers: the interval of the orders task is
    armed; the time-out of the members task is armed exactly when no
    invocation of [syncMembers] is in progress; and the invocations of
    [syncMembers] are one more than the time-outs armed while one is in
    progress, as many otherwise. *)
Definition scheduler_state (p : Proc) : Prop :=
  (ordersIntervalId p < next_id p)%nat /\
  (forall i, membersTimeoutId p = Some i ->
             (ordersIntervalId p < i < next_id p)%nat) /\
  ((members_running p = true /\ timers p = [ordersIntervalId p] /\
    List.length (filter is_members_invoke (effects p)) =
    S (List.length (filter is_members_timeout (effects p)))) \/
   (members_running p = false /\
    (exists i, membersTimeoutId p = Some i /\
               timers p = [i; ordersIntervalId p]) /\
    List.length (filter is_members_invoke (effects p)) =
    List.length (filter is_members_timeout (effects p)))).

Definition is_error (e : ProcEffect) : bool :=
  match e with PError _ => true | _ => false end.

(** A value of the environment that the checks accept. *)
Definition is_set (v : option string) : Prop :=
  exists s, v = Some s /\ s <> "".

(** ** The earlier [syncOrders], with retries and a global counter *)

(** The version of [index.ts] before the members task: [syncOrders] holds
    the retry loop itself, on the global [consecutiveFailures]; every
    failing status is retried, and the body of the answer is not read. *)
Module Legacy.

(** What the [catch] block receives. *)
Inductive Thrown :=
| FetchRejected (reason : RejectReason)
| SyncError (status : Z) (statusText : string).

(** The lines written to the console, by the template that produces them. *)
Inductive Line :=
| SyncedLine
| RetryLine (attempt : Z) (attempts : Z) (seconds : Z) (err : Thrown)
| ExhaustedLine (attempts : Z) (err : Thrown)
| WarningLine (failures : Z).

Inductive Effect :=
| Fetch (rq : Request)
| Sleep (ms : Z)
| ConsoleError (l : Line)
| ConsoleLog (l : Line).

(** The global [consecutiveFailures] and the effects so far. *)
Record St := {
  count : Z;
  trace : list Effect
}.

Definition emit (e : Effect) (st : St) : St :=
  {| count := count st; trace := trace st ++ [e] |}.

Definition set_count (c : Z) (st : St) : St :=
  {| count := c; trace := trace st |}.

(** The [catch] block of try [attempt]; [again] is the rest of the loop.
    The branch of the last try does not return: the loop goes on, to its
    guard. *)
Definition on_catch (attempt : Z) (err : Thrown) (st : St)
    (again : St -> option St) : option St :=
  if attempt =? MAX_RETRIES then
    let st := set_count (count st + 1) st in
    let st := emit (ConsoleError (ExhaustedLine MAX_RETRIES err)) st in
    let st :=
      if count st >=? CONSECUTIVE_FAILURE_THRESHOLD
      then emit (ConsoleError (WarningLine (count st))) st
      else st in
    again st
  else
    let delay := 2 ^ attempt * 1000 in
    let st :=
      emit (ConsoleError (RetryLine attempt MAX_RETRIES (delay / 1000) err))
           st in
    let st := emit (Sleep delay) st in
    again st.

(** The [for] loop, from [attempt] on, with a bound on the iterations. *)
Fixpoint loop (secret url : string) (net : Z -> FetchOutcome)
    (fuel : nat) (attempt : Z) (st : St) : option St :=
  match fuel with
  | O => None
  | S fuel' =>
    if attempt <=? MAX_RETRIES then
      let again := loop secret url net fuel' (attempt + 1) in
      let st := emit (Fetch (request secret url "orders")) st in
      match net attempt with
      | Rejects reason => on_catch attempt (FetchRejected reason) st again
      | Resolves r =>
        if negb (ok r) then
          on_catch attempt (SyncError (status r) (statusText r)) st again
        else
          let st := set_count 0 st in
          Some (emit (ConsoleLog SyncedLine) st)
      end
    else Some st
  end.

Definition syncOrders (secret url : string) (net : Z -> FetchOutcome)
    (consecutiveFailures : Z) : option St :=
  loop secret url net (S (Z.to_nat MAX_RETRIES)) 1
       {| count := consecutiveFailures; trace := [] |}.

Definition requests (tr : list Effect) : nat :=
  List.length (filter (fun e => match e with Fetch _ => true | _ => false end)
                      tr).

Fixpoint sleeps (tr : list Effect) : list Z :=
  match tr with
  | [] => []
  | Sleep ms :: rest => ms :: sleeps rest
  | _ :: rest => sleeps rest
  end.

Definition warned (tr : list Effect) : bool :=
  existsb (fun e => match e with
                    | ConsoleError (WarningLine _) => true
                    | _ => false
                    end) tr.

Definition synced (tr : list Effect) : bool :=
  existsb (fun e => match e with
                    | ConsoleLog SyncedLine => true
                    | _ => false
                    end) tr.

End Legacy.

(** The try got an answer of successful status. *)
Definition answered_ok (o : FetchOutcome) : bool :=
  match o with
  | Resolves r => ok r
  | Rejects _ => false
  end.

(** The outcome is one on which the two versions do the same: not a
    status of the non-retryable set, and not a successful status with a
    body that does not parse. *)
Definition plain (o : FetchOutcome) : bool :=
  match o with
  | Rejects _ => true
  | Resolves r =>
    if ok r then
      match json r with Some _ => true | None => false end
    else negb (non_retryable (status r))
  end.

(** ** Facts on binary64 rounding used below *)

Section Rounding.

Variables prec emax : Z.

Lemma shr_1_nonneg mrs : 0 <= shr_m mrs -> 0 <= shr_m (shr_1 mrs).
Proof.
  destruct mrs as [m r s]; simpl.
  destruct m as [|p|p]; simpl; intros H; try lia.
  destruct p; simpl; lia.
Qed.

Lemma iter_shr_1_nonneg p :
  forall mrs, 0 <= shr_m mrs -> 0 <= shr_m (iter_pos shr_1 p mrs).
Proof.
  induction p as [p IH|p IH|]; simpl; intros mrs H.
  - apply IH, IH, shr_1_nonneg, H.
  - apply IH, IH, H.
  - apply shr_1_nonneg, H.
Qed.

Lemma shr_record_of_loc_m m l : shr_m (shr_record_of_loc m l) = m.
Proof. destruct l as [|[]]; reflexivity. Qed.

Lemma shr_fexp_nonneg m e l :
  0 <= m -> 0 <= shr_m (fst (shr_fexp prec emax m e l)).
Proof.
  intros H. unfold shr_fexp, shr.
  destruct (fexp prec emax (Zdigits2 m + e) - e) as [|p|p]; simpl;
    try (rewrite shr_record_of_loc_m; exact H).
  apply iter_shr_1_nonneg. rewrite shr_record_of_loc_m. exact H.
Qed.

Lemma round_nearest_even_nonneg m l : 0 <= m -> 0 <= round_nearest_even m l.
Proof.
  intros H. unfold round_nearest_even.
  destruct l as [|[]]; try lia. destruct (Z.even m); lia.
Qed.

(** Rounding a non-negative mantissa never produces NaN. *)
Lemma binary_round_aux_not_nan sx mx ex lx :
  0 <= mx -> binary_round_aux prec emax sx mx ex lx <> S754_nan.
Proof.
  intros H. unfold binary_round_aux.
  pose proof (shr_fexp_nonneg mx ex lx H) as H1.
  destruct (shr_fexp prec emax mx ex lx) as [mrs1 e1]; simpl in H1.
  pose proof (shr_fexp_nonneg
                (round_nearest_even (shr_m mrs1) (loc_of_shr_record mrs1))
                e1 loc_Exact (round_nearest_even_nonneg _ _ H1)) as H2.
  destruct (shr_fexp prec emax _ e1 loc_Exact) as [mrs2 e2]; simpl in H2.
  destruct (shr_m mrs2) as [|m|m]; try discriminate; try lia.
  destruct (e2 <=? emax - prec); discriminate.
Qed.

End Rounding.

(** A strictly positive number times 1000 is never NaN: the product of two
    finite numbers is rounded from a positive mantissa, and an infinity
    times a finite non-zero number is an infinity. *)
Lemma mul_pos_not_nan (x : Js.num) :
  Js.gtb x (Js.lit 0) = true -> Js.is_nan (Js.mul x (Js.lit 1000)) = false.
Proof.
  intros H.
  destruct x as [s|s| |s m e]; try discriminate H.
  - reflexivity.
  - unfold Js.mul.
    change (Js.lit 1000)
      with (S754_finite false 8796093022208000%positive (-43)).
    cbn [SFmul].
    destruct (binary_round_aux Js.prec Js.emax (xorb s false)
                (Z.pos (m * 8796093022208000)) (e + -43) loc_Exact) eqn:E;
      try reflexivity.
    exfalso. revert E. apply binary_round_aux_not_nan. lia.
Qed.

(** ** The executor: unfolding the loop *)

Section Executor.

Variables secret url label : string.
Variable net : Z -> FetchOutcome.

Local Abbreviation loop' := (loop secret url label net).
Local Abbreviation rq := (request secret url label).

Lemma delay_seconds k : 2 ^ k * 1000 / 1000 = 2 ^ k.
Proof. apply Z.div_mul. lia. Qed.

(** After the loop: the trailing [return {ok: false}]. *)
Lemma loop_after fuel attempt st :
  MAX_RETRIES < attempt -> loop' (S fuel) attempt st = Some (failure, st).
Proof.
  intros H. simpl. destruct (attempt <=? MAX_RETRIES) eqn:E; [|reflexivity].
  apply Z.leb_le in E. lia.
Qed.

(** A try that ends in the [catch] block and is not the last one: the
    loop goes on with the next try, after the retry line and the wait. *)
Lemma loop_caught fuel attempt st err :
  attempt < MAX_RETRIES ->
  caught (net attempt) = Some err ->
  loop' (S fuel) attempt st =
  loop' fuel (attempt + 1)
    {| count := count_after_try (net attempt) (count st);
       trace := trace st ++
                [Fetch rq;
                 ConsoleError
                   (RetryLine label attempt MAX_RETRIES (2 ^ attempt) err);
                 Sleep (2 ^ attempt * 1000)] |}.
Proof.
  intros H Hc. cbn [loop].
  destruct (attempt <=? MAX_RETRIES) eqn:E;
    [|apply Z.leb_gt in E; lia].
  unfold on_catch.
  destruct (attempt =? MAX_RETRIES) eqn:E1;
    [apply Z.eqb_eq in E1; lia|].
  rewrite (delay_seconds attempt).
  unfold caught in Hc. unfold count_after_try.
  destruct (net attempt) as [reason|r].
  - injection Hc as <-. unfold emit; simpl.
    rewrite <- !app_assoc. reflexivity.
  - destruct (ok r); simpl in Hc |- *.
    + destruct (json r); [discriminate|]. injection Hc as <-.
      unfold emit, set_count; simpl. rewrite <- !app_assoc. reflexivity.
    + destruct (non_retryable (status r)); [discriminate|].
      injection Hc as <-.
      unfold emit; simpl. rewrite <- !app_assoc. reflexivity.
Qed.

(** The last try, when it ends in the [catch] block. *)
Lemma loop_exhausted fuel st err :
  caught (net MAX_RETRIES) = Some err ->
  loop' (S fuel) MAX_RETRIES st =
  let c := count_after_try (net MAX_RETRIES) (count st) + 1 in
  Some (failure,
        {| count := c;
           trace := trace st ++
                    [Fetch rq;
                     ConsoleError (ExhaustedLine label MAX_RETRIES err)] ++
                    (if c >=? CONSECUTIVE_FAILURE_THRESHOLD
                     then [ConsoleError (WarningLine label c)] else []) |}).
Proof.
  intros Hc. cbn [loop]. change (MAX_RETRIES <=? MAX_RETRIES) with true.
  cbv iota. unfold on_catch. change (MAX_RETRIES =? MAX_RETRIES) with true.
  cbv iota. unfold caught in Hc. unfold count_after_try.
  destruct (net MAX_RETRIES) as [reason|r].
  - injection Hc as <-. unfold emit, set_count; simpl.
    destruct (count st + 1 >=? CONSECUTIVE_FAILURE_THRESHOLD);
      simpl; rewrite <- ?app_assoc; reflexivity.
  - destruct (ok r); simpl in Hc |- *.
    + destruct (json r); [discriminate|]. injection Hc as <-.
      unfold emit, set_count; simpl. rewrite <- ?app_assoc. reflexivity.
    + destruct (non_retryable (status r)); [discriminate|].
      injection Hc as <-. unfold emit, set_count; simpl.
      destruct (count st + 1 >=? CONSECUTIVE_FAILURE_THRESHOLD);
        simpl; rewrite <- ?app_assoc; reflexivity.
Qed.

(** A try that gets a non-retryable status. *)
Lemma loop_rejected fuel attempt st r :
  attempt <= MAX_RETRIES ->
  net attempt = Resolves r -> ok r = false ->
  non_retryable (status r) = true ->
  loop' (S fuel) attempt st =
  Some (failure,
        {| count := count st + 1;
           trace := trace st ++
                    [Fetch rq;
                     ConsoleError
                       (NotRetryableLine label (status r) (statusText r))] |}).
Proof.
  intros H Hn Hok Hs. cbn [loop].
  destruct (attempt <=? MAX_RETRIES) eqn:E; [|apply Z.leb_gt in E; lia].
  rewrite Hn, Hok, Hs. unfold emit, set_count; simpl.
  rewrite <- app_assoc. reflexivity.
Qed.

(** A try that gets a successful status and a body that parses. *)
Lemma loop_success fuel attempt st r data :
  attempt <= MAX_RETRIES ->
  net attempt = Resolves r -> ok r = true -> json r = Some data ->
  loop' (S fuel) attempt st =
  Some ({| res_ok := true; res_data := Some data |},
        {| count := 0; trace := trace st ++ [Fetch rq] |}).
Proof.
  intros H Hn Hok Hj. cbn [loop].
  destruct (attempt <=? MAX_RETRIES) eqn:E; [|apply Z.leb_gt in E; lia].
  rewrite Hn, Hok, Hj. reflexivity.
Qed.

(** A try that does not end in the [catch] block got an answer: either a
    non-retryable status, or a successful status with a body that parses. *)
Lemma caught_none o :
  caught o = None ->
  exists r, o = Resolves r /\
    ((ok r = false /\ non_retryable (status r) = true) \/
     (ok r = true /\ exists data, json r = Some data)).
Proof.
  destruct o as [reason|r]; simpl; [discriminate|].
  intros H. exists r. split; [reflexivity|].
  destruct (ok r); simpl in H.
  - right. split; [reflexivity|].
    destruct (json r) as [d|]; [exists d; reflexivity|discriminate].
  - left. split; [reflexivity|].
    destruct (non_retryable (status r)); [reflexivity|discriminate].
Qed.

(** The loop returns as soon as the bound covers the tries that are left. *)
Lemma loop_total fuel :
  forall attempt st,
    (0 < fuel)%nat -> MAX_RETRIES - attempt < Z.of_nat fuel ->
    exists out, loop' fuel attempt st = Some out.
Proof.
  induction fuel as [|fuel IH]; intros attempt st Hpos Hfuel; [lia|].
  destruct (Z_lt_le_dec MAX_RETRIES attempt) as [Hgt|Hle].
  { rewrite loop_after by exact Hgt. eauto. }
  destruct (caught (net attempt)) as [err|] eqn:Hc.
  - destruct (Z.eq_dec attempt MAX_RETRIES) as [->|Hne].
    + rewrite (loop_exhausted _ _ _ Hc). eauto.
    + rewrite (loop_caught _ _ _ err) by (lia || exact Hc).
      apply IH; lia.
  - destruct (caught_none _ Hc) as (r & Hn & [[Hok Hs]|[Hok [d Hj]]]).
    + rewrite (loop_rejected _ _ _ r) by assumption. eauto.
    + rewrite (loop_success _ _ _ r d) by assumption. eauto.
Qed.

Lemma requests_app tr1 tr2 :
  requests (tr1 ++ tr2) = (requests tr1 + requests tr2)%nat.
Proof. unfold requests. rewrite filter_app, length_app. reflexivity. Qed.

Lemma waits_app tr1 tr2 :
  waits (tr1 ++ tr2) = (waits tr1 + waits tr2)%nat.
Proof. unfold waits. rewrite filter_app, length_app. reflexivity. Qed.

(** The effects of the loop extend the trace; each iteration sends one
    request, first thing, and there are no more iterations than tries
    left. *)
Lemma loop_trace fuel :
  forall attempt st res st',
    loop' fuel attempt st = Some (res, st') ->
    exists tr,
      trace st' = trace st ++ tr /\
      Z.of_nat (requests tr) <= Z.max 0 (MAX_RETRIES - attempt + 1) /\
      (attempt <= MAX_RETRIES -> exists tr', tr = Fetch rq :: tr').
Proof.
  induction fuel as [|fuel IH]; intros attempt st res st' H; [discriminate|].
  destruct (Z_lt_le_dec MAX_RETRIES attempt) as [Hgt|Hle].
  { rewrite loop_after in H by exact Hgt. injection H as _ <-.
    exists []. rewrite app_nil_r. repeat split; [simpl; lia|lia]. }
  destruct (caught (net attempt)) as [err|] eqn:Hc.
  - destruct (Z.eq_dec attempt MAX_RETRIES) as [->|Hne].
    + rewrite (loop_exhausted _ _ _ Hc) in H. injection H as _ <-.
      eexists. split; [reflexivity|]. split; [|eauto].
      cbn zeta. destruct (_ >=? _); unfold MAX_RETRIES; simpl; lia.
    + rewrite (loop_caught _ _ _ err) in H by (lia || exact Hc).
      apply IH in H. destruct H as (tr & Htr & Hreq & _).
      simpl in Htr. rewrite <- app_assoc in Htr.
      eexists. split; [exact Htr|]. split; [|simpl; eauto].
      rewrite requests_app. change (requests _) with 1%nat at 1. lia.
  - destruct (caught_none _ Hc) as (r & Hn & [[Hok Hs]|[Hok [d Hj]]]).
    + rewrite (loop_rejected _ _ _ r) in H by assumption.
      injection H as _ <-. eexists. split; [reflexivity|].
      split; [|eauto]. change (requests _) with 1%nat. lia.
    + rewrite (loop_success _ _ _ r d) in H by assumption.
      injection H as _ <-. eexists. split; [reflexivity|].
      split; [|eauto]. change (requests _) with 1%nat. lia.
Qed.

(** When the tries [1 .. n] all ended in the [catch] block, the run is the
    loop from try [n + 1] on, in the state [entering n]. *)
Lemma run_entering c (n : nat) :
  Z.of_nat n < MAX_RETRIES ->
  made net (Z.of_nat n + 1) ->
  postWithRetry secret url label net c =
  loop' (S (Z.to_nat MAX_RETRIES) - n) (Z.of_nat n + 1)
        (entering secret url label net n c).
Proof.
  induction n as [|n IH]; intros Hn Hmade; [reflexivity|].
  rewrite IH; [|lia|intros j Hj; apply Hmade; lia].
  assert (Hc : caught (net (Z.of_nat (S n))) <> None)
    by (apply Hmade; lia).
  destruct (caught (net (Z.of_nat (S n)))) as [err|] eqn:E; [|congruence].
  replace (S (Z.to_nat MAX_RETRIES) - n)%nat
    with (S (S (Z.to_nat MAX_RETRIES) - S n)) by (unfold MAX_RETRIES in *; lia).
  replace (Z.of_nat n + 1) with (Z.of_nat (S n)) by lia.
  rewrite (loop_caught _ _ _ err) by (lia || exact E).
  cbn [entering]. rewrite E. reflexivity.
Qed.

End Executor.

(** ** The executor: what a run does *)

Section Runs.

Variables secret url label : string.
Variable net : Z -> FetchOutcome.

Local Abbreviation loop' := (loop secret url label net).
Local Abbreviation run' := (postWithRetry secret url label net).
Local Abbreviation enter := (entering secret url label net).
Local Abbreviation rq := (request secret url label).

(** The run, seen from try [k]. *)
Lemma run_from c k :
  1 <= k <= MAX_RETRIES -> made net k ->
  run' c = loop' (S (Z.to_nat (MAX_RETRIES - k + 1))) k
                 (enter (Z.to_nat (k - 1)) c).
Proof.
  intros Hk Hmade.
  rewrite (run_entering _ _ _ _ c (Z.to_nat (k - 1))).
  - f_equal; unfold MAX_RETRIES in *;
      change (Z.to_nat 3) with 3%nat; lia.
  - lia.
  - replace (Z.of_nat (Z.to_nat (k - 1)) + 1) with k by lia. exact Hmade.
Qed.

Lemma made_weaken k j : made net k -> j <= k -> made net j.
Proof. intros H Hj i Hi. apply H. lia. Qed.

(** Before try [n + 1], [n] requests were sent and [n] waits made. *)
Lemma entering_counts c (n : nat) :
  made net (Z.of_nat n + 1) ->
  requests (trace (enter n c)) = n /\ waits (trace (enter n c)) = n.
Proof.
  induction n as [|n IH]; intros Hmade; [split; reflexivity|].
  destruct IH as [IHr IHw]; [apply (made_weaken _ _ Hmade); lia|].
  assert (Hc : caught (net (Z.of_nat (S n))) <> None) by (apply Hmade; lia).
  cbn [entering].
  destruct (caught (net (Z.of_nat (S n)))) as [err|]; [|congruence].
  cbn [trace]. rewrite requests_app, waits_app, IHr, IHw.
  split; [unfold requests|unfold waits]; simpl; lia.
Qed.

(** Tries that fail without any answer of successful status leave the
    counter as it was. *)
Lemma entering_count c (n : nat) :
  (forall j, 1 <= j <= Z.of_nat n -> retryable_failure (net j) = true) ->
  count (enter n c) = c.
Proof.
  induction n as [|n IH]; intros H; [reflexivity|].
  cbn [entering].
  assert (Hn : retryable_failure (net (Z.of_nat (S n))) = true)
    by (apply H; lia).
  assert (IH' : count (enter n c) = c) by (apply IH; intros; apply H; lia).
  destruct (caught (net (Z.of_nat (S n)))); [|exact IH'].
  cbn [count]. unfold count_after_try.
  destruct (net (Z.of_nat (S n))) as [|r]; [exact IH'|].
  simpl in Hn. destruct (ok r); [discriminate|exact IH'].
Qed.

Lemma retryable_caught o :
  retryable_failure o = true ->
  exists err, caught o = Some err /\ forall c, count_after_try o c = c.
Proof.
  destruct o as [reason|r]; simpl; intros H.
  - eauto.
  - destruct (ok r); [discriminate|]. simpl in H |- *.
    destruct (non_retryable (status r)); [discriminate|]. eauto.
Qed.

(** The run goes on after a try that is caught before the last one. *)
Lemma run_continues c k err :
  1 <= k < MAX_RETRIES -> made net k -> caught (net k) = Some err ->
  exists res st' rest,
    run' c = Some (res, st') /\
    trace st' = trace (enter (Z.to_nat (k - 1)) c) ++
                [Fetch rq;
                 ConsoleError (RetryLine label k MAX_RETRIES (2 ^ k) err);
                 Sleep (2 ^ k * 1000);
                 Fetch rq] ++ rest.
Proof.
  intros Hk Hmade Hc.
  assert (Hmade' : made net (k + 1)).
  { intros j Hj. destruct (Z.eq_dec j k) as [->|]; [congruence|].
    apply Hmade. lia. }
  pose proof (run_from c (k + 1)) as Hrun.
  specialize (Hrun ltac:(lia) Hmade').
  replace (Z.to_nat (k + 1 - 1)) with (S (Z.to_nat (k - 1))) in Hrun by lia.
  cbn [entering] in Hrun.
  replace (Z.of_nat (S (Z.to_nat (k - 1)))) with k in Hrun by lia.
  rewrite Hc in Hrun.
  destruct (loop_total secret url label net
              (S (Z.to_nat (MAX_RETRIES - (k + 1) + 1))) (k + 1)
              {| count := count_after_try (net k)
                            (count (enter (Z.to_nat (k - 1)) c));
                 trace := trace (enter (Z.to_nat (k - 1)) c) ++
                   [Fetch rq;
                    ConsoleError (RetryLine label k MAX_RETRIES (2 ^ k) err);
                    Sleep (2 ^ k * 1000)] |})
    as [[res st'] Hout]; [lia|lia|].
  destruct (loop_trace _ _ _ _ _ _ _ _ _ Hout) as (tr & Htr & _ & Hfirst).
  destruct Hfirst as [rest ->]; [lia|].
  exists res, st', rest. split; [congruence|].
  rewrite Htr. cbn [trace]. rewrite <- app_assoc. reflexivity.
Qed.

End Runs.

(** ** Termination and the bound on the number of tries *)

(** C9.  Whatever the url, the label, the counter and the outcomes of the
    tries, [postWithRetry] returns a result after at least one and at most
    [MAX_RETRIES] = 3 requests; the body of the loop returns on the last
    try in every branch (one iteration is enough from try 3, so the loop
    is not entered again); and past the last try the trailing
    [return {ok: false}] gives a result without any further effect. *)
Theorem postWithRetry_terminates :
  forall (secret url label : string) (net : Z -> FetchOutcome) (c : Z),
    (exists res st,
        postWithRetry secret url label net c = Some (res, st) /\
        (1 <= requests (trace st))%nat /\
        Z.of_nat (requests (trace st)) <= MAX_RETRIES) /\
    (forall st, exists out,
        loop secret url label net 1 MAX_RETRIES st = Some out) /\
    (forall fuel attempt st,
        MAX_RETRIES < attempt ->
        loop secret url label net (S fuel) attempt st = Some (failure, st)).
Proof.
  intros secret url label net c. split; [|split].
  - destruct (loop_total secret url label net (S (Z.to_nat MAX_RETRIES)) 1
                {| count := c; trace := [] |}) as [[res st] H];
      [lia|unfold MAX_RETRIES; lia|].
    exists res, st. split; [exact H|].
    destruct (loop_trace _ _ _ _ _ _ _ _ _ H) as (tr & Htr & Hreq & Hfirst).
    destruct Hfirst as [tr' ->]; [unfold MAX_RETRIES; lia|].
    simpl in Htr. rewrite Htr. split.
    + unfold requests; simpl; lia.
    + revert Hreq. unfold MAX_RETRIES. lia.
  - intros st. apply loop_total; [lia|unfold MAX_RETRIES; simpl; lia].
  - intros fuel attempt st H. apply loop_after. exact H.
Qed.

Lemma postWithRetry_terminates_witness :
  MAX_RETRIES < 4 /\
  loop "s3cret" "https://dash/api/cron" "orders" (always (Resolves resp500))
       1 4 {| count := 2; trace := [] |}
  = Some (failure, {| count := 2; trace := [] |}).
Proof.
  split; [reflexivity|].
  apply (postWithRetry_terminates "s3cret" "https://dash/api/cron" "orders"
           (always (Resolves resp500)) 0).
  reflexivity.
Defined.

(** ** Retryable failures: back-off, then a terminal failure *)

(** C5.  Let try [k] (1 <= k <= 3) be made and end with a retryable
    failing outcome: no answer (network error, timeout) or a failing
    status outside the non-retryable set.  If [k] is not the last try,
    the run goes on with the retry line, a wait of exactly [2^k] seconds
    ([2^k * 1000] ms) and then the next request.  If [k] is the last try,
    there is no further wait and no further request, the counter is
    incremented by 1 and the failure is returned with the line of the
    exhausted retries (the retryable failure); the only thing that may
    follow is the escalated warning. *)
Theorem retryable_failure_backoff :
  forall (secret url label : string) (net : Z -> FetchOutcome) (c k : Z),
    1 <= k <= MAX_RETRIES ->
    made net k ->
    retryable_failure (net k) = true ->
    let st := entering secret url label net (Z.to_nat (k - 1)) c in
    let rq := request secret url label in
    exists err,
      caught (net k) = Some err /\
      (k < MAX_RETRIES ->
       exists res st' rest,
         postWithRetry secret url label net c = Some (res, st') /\
         trace st' =
         trace st ++
         [Fetch rq;
          ConsoleError (RetryLine label k MAX_RETRIES (2 ^ k) err);
          Sleep (2 ^ k * 1000);
          Fetch rq] ++ rest) /\
      (k = MAX_RETRIES ->
       exists st' rest,
         postWithRetry secret url label net c = Some (failure, st') /\
         count st' = count st + 1 /\
         trace st' =
         trace st ++
         [Fetch rq; ConsoleError (ExhaustedLine label MAX_RETRIES err)]
         ++ rest /\
         requests rest = 0%nat /\ waits rest = 0%nat /\
         ((forall j, 1 <= j < k -> retryable_failure (net j) = true) ->
          count st' = c + 1)).
Proof.
  intros secret url label net c k Hk Hmade Hret st rq.
  destruct (retryable_caught _ Hret) as (err & Hc & Hcount).
  exists err. split; [exact Hc|]. split.
  - intros Hlt. apply run_continues; [lia|exact Hmade|exact Hc].
  - intros ->.
    rewrite (run_from secret url label net c MAX_RETRIES Hk Hmade).
    rewrite (loop_exhausted _ _ _ _ _ _ err Hc).
    cbn zeta. rewrite Hcount. fold st. fold rq.
    eexists. eexists. split; [reflexivity|]. cbn [count trace].
    split; [reflexivity|]. split; [reflexivity|].
    split; [|split].
    + destruct (_ >=? _); reflexivity.
    + destruct (_ >=? _); reflexivity.
    + intros Hall. f_equal. apply entering_count.
      intros j Hj. apply Hall. lia.
Qed.

Lemma retryable_failure_backoff_witness :
  let net := script [Rejects TimedOut; Rejects (NetworkError "fetch failed")]
                    (Resolves resp500) in
  let rq := request "s3cret" "https://dash/api/members" "members" in
  (1 <= 3 <= MAX_RETRIES /\
   made net 3 /\
   retryable_failure (net 3) = true /\
   exists st',
     postWithRetry "s3cret" "https://dash/api/members" "members" net 4
     = Some (failure, st') /\
     count st' = 5) /\
  (1 <= 1 <= MAX_RETRIES /\
   made net 1 /\
   retryable_failure (net 1) = true /\
   1 < MAX_RETRIES /\
   exists res st' rest,
     postWithRetry "s3cret" "https://dash/api/members" "members" net 4
     = Some (res, st') /\
     trace st' =
     [Fetch rq;
      ConsoleError (RetryLine "members" 1 3 2 (FetchRejected TimedOut));
      Sleep 2000;
      Fetch rq] ++ rest).
Proof.
  intros net rq. split.
  - assert (Hk : 1 <= 3 <= MAX_RETRIES) by (unfold MAX_RETRIES; lia).
    assert (Hmade : made net 3).
    { intros j Hj.
      assert (Hj' : j = 1 \/ j = 2) by lia.
      destruct Hj' as [-> | ->]; discriminate. }
    assert (Hret : retryable_failure (net 3) = true) by reflexivity.
    split; [exact Hk|]. split; [exact Hmade|]. split; [exact Hret|].
    destruct (retryable_failure_backoff "s3cret" "https://dash/api/members"
                "members" net 4 3 Hk Hmade Hret)
      as (err & _ & _ & Hlast).
    destruct (Hlast eq_refl) as (st' & rest & Hrun & _ & _ & _ & _ & Hc).
    exists st'. split; [exact Hrun|].
    apply Hc. intros j Hj.
    assert (Hj' : j = 1 \/ j = 2) by lia.
    destruct Hj' as [-> | ->]; reflexivity.
  - assert (Hk : 1 <= 1 <= MAX_RETRIES) by (unfold MAX_RETRIES; lia).
    assert (Hmade : made net 1) by (intros j Hj; lia).
    assert (Hret : retryable_failure (net 1) = true) by reflexivity.
    assert (Hlt : 1 < MAX_RETRIES) by reflexivity.
    split; [exact Hk|]. split; [exact Hmade|]. split; [exact Hret|].
    split; [exact Hlt|].
    destruct (retryable_failure_backoff "s3cret" "https://dash/api/members"
                "members" net 4 1 Hk Hmade Hret)
      as (err & Hc & Hnext & _).
    injection Hc as <-.
    exact (Hnext Hlt).
Defined.

(** ** Non-retryable rejections *)

(** C4, as stated, fails when the non-retryable status does not come on
    the first try: here try 1 gets a 500 and try 2 a 401; two requests are
    sent and one back-off wait is made. *)
Lemma non_retryable_later_try_counterexample :
  let net := script [Resolves resp500] (Resolves resp401) in
  made net 2 /\
  net 2 = Resolves resp401 /\
  non_retryable (status resp401) = true /\
  exists st',
    postWithRetry "s3cret" "https://dash/api/cron" "orders" net 0
    = Some (failure, st') /\
    requests (trace st') = 2%nat /\
    waits (trace st') = 1%nat /\
    ~ (requests (trace st') = 1%nat /\ waits (trace st') = 0%nat).
Proof.
  intros net. split.
  { intros j Hj. assert (j = 1) as -> by lia. discriminate. }
  split; [reflexivity|]. split; [reflexivity|].
  eexists. split; [reflexivity|]. split; [reflexivity|].
  split; [reflexivity|]. intros [H _]. discriminate H.
Qed.

(** C4, amended.  Let try [k] (1 <= k <= 3) be made and get a response
    whose status is in the non-retryable set {400, 401, 403, 429}.  Then
    the run ends there: the counter is incremented by exactly 1, the line
    of the non-retryable failure is written and the failure is returned;
    no request and no wait follows.  In all, [k] requests were sent and
    the [k - 1] back-off waits of the earlier tries were made: exactly one
    request and no wait when the status comes on the first try. *)
Theorem non_retryable_status_ends_run :
  forall (secret url label : string) (net : Z -> FetchOutcome) (c k : Z)
         (r : Response),
    1 <= k <= MAX_RETRIES ->
    made net k ->
    net k = Resolves r ->
    ok r = false ->
    non_retryable (status r) = true ->
    let st := entering secret url label net (Z.to_nat (k - 1)) c in
    exists st',
      postWithRetry secret url label net c = Some (failure, st') /\
      count st' = count st + 1 /\
      trace st' =
      trace st ++
      [Fetch (request secret url label);
       ConsoleError (NotRetryableLine label (status r) (statusText r))] /\
      Z.of_nat (requests (trace st')) = k /\
      Z.of_nat (waits (trace st')) = k - 1 /\
      (k = 1 ->
       count st' = c + 1 /\
       requests (trace st') = 1%nat /\ waits (trace st') = 0%nat) /\
      ((forall j, 1 <= j < k -> retryable_failure (net j) = true) ->
       count st' = c + 1).
Proof.
  intros secret url label net c k r Hk Hmade Hn Hok Hs st.
  rewrite (run_from secret url label net c k Hk Hmade).
  rewrite (loop_rejected _ _ _ _ _ _ _ r) by (lia || assumption).
  fold st. eexists. split; [reflexivity|]. cbn [count trace].
  destruct (entering_counts secret url label net c (Z.to_nat (k - 1)))
    as [Hr Hw].
  { replace (Z.of_nat (Z.to_nat (k - 1)) + 1) with k by lia. exact Hmade. }
  fold st in Hr, Hw.
  assert (Hreq : Z.of_nat (requests (trace st ++
            [Fetch (request secret url label);
             ConsoleError
               (NotRetryableLine label (status r) (statusText r))])) = k).
  { rewrite requests_app, Hr. unfold requests; simpl. lia. }
  assert (Hwait : Z.of_nat (waits (trace st ++
            [Fetch (request secret url label);
             ConsoleError
               (NotRetryableLine label (status r) (statusText r))]))
          = k - 1).
  { rewrite waits_app, Hw. unfold waits; simpl. lia. }
  split; [reflexivity|]. split; [reflexivity|].
  split; [exact Hreq|]. split; [exact Hwait|]. split.
  - intros ->. subst st. simpl. repeat split.
  - intros Hall. f_equal. apply entering_count.
    intros j Hj. apply Hall. lia.
Qed.

Lemma non_retryable_status_ends_run_witness :
  let net := always (Resolves resp401) in
  1 <= 1 <= MAX_RETRIES /\
  made net 1 /\
  net 1 = Resolves resp401 /\
  ok resp401 = false /\
  non_retryable (status resp401) = true /\
  exists st',
    postWithRetry "s3cret" "https://dash/api/cron" "orders" net 2
    = Some (failure, st') /\
    count st' = 3 /\
    requests (trace st') = 1%nat /\ waits (trace st') = 0%nat.
Proof.
  intros net.
  assert (Hk : 1 <= 1 <= MAX_RETRIES) by (unfold MAX_RETRIES; lia).
  assert (Hmade : made net 1) by (intros j Hj; lia).
  split; [exact Hk|]. split; [exact Hmade|].
  split; [reflexivity|]. split; [reflexivity|]. split; [reflexivity|].
  destruct (non_retryable_status_ends_run "s3cret" "https://dash/api/cron"
              "orders" net 2 1 resp401 Hk Hmade eq_refl eq_refl eq_refl)
    as (st' & Hrun & _ & _ & _ & _ & Hfirst & _).
  exists st'. split; [exact Hrun|]. exact (Hfirst eq_refl).
Defined.

(** ** Answers with a successful status *)

(** C2, as stated, fails when the body of the answer is absent or does not
    parse: every try here gets a 200 without a usable body; three requests
    are sent, and the failure is returned. *)
Lemma ok_unparsable_body_counterexample :
  let net := always (Resolves resp200_unparsable) in
  made net 1 /\
  net 1 = Resolves resp200_unparsable /\
  ok resp200_unparsable = true /\
  exists st',
    postWithRetry "s3cret" "https://dash/api/cron" "orders" net 2
    = Some (failure, st') /\
    res_ok failure = false /\
    requests (trace st') = 3%nat /\
    waits (trace st') = 2%nat.
Proof.
  intros net. split; [intros j Hj; lia|].
  split; [reflexivity|]. split; [reflexivity|].
  eexists. split; [reflexivity|]. repeat split.
Qed.

(** C2, amended.  Let try [k] (1 <= k <= 3) be made and get an answer
    with a successful status.  If the body parses, the counter is reset to
    0, the success is returned with the parsed data, and the run ends with
    that request: no further try.  If the body is absent or does not
    parse, the answer is not taken as a success: the try is handled as a
    failed one, with the retry line, the back-off wait and the next
    request when it is not the last try, and the failure returned when it
    is. *)
Theorem ok_response_ends_run_when_body_parses :
  forall (secret url label : string) (net : Z -> FetchOutcome) (c k : Z)
         (r : Response),
    1 <= k <= MAX_RETRIES ->
    made net k ->
    net k = Resolves r ->
    ok r = true ->
    let st := entering secret url label net (Z.to_nat (k - 1)) c in
    let rq := request secret url label in
    (forall data,
        json r = Some data ->
        postWithRetry secret url label net c =
        Some ({| res_ok := true; res_data := Some data |},
              {| count := 0; trace := trace st ++ [Fetch rq] |})) /\
    (json r = None ->
     (k < MAX_RETRIES ->
      exists res st' rest,
        postWithRetry secret url label net c = Some (res, st') /\
        trace st' =
        trace st ++
        [Fetch rq;
         ConsoleError (RetryLine label k MAX_RETRIES (2 ^ k) JsonRejected);
         Sleep (2 ^ k * 1000);
         Fetch rq] ++ rest) /\
     (k = MAX_RETRIES ->
      exists st' rest,
        postWithRetry secret url label net c = Some (failure, st') /\
        trace st' =
        trace st ++
        [Fetch rq; ConsoleError (ExhaustedLine label MAX_RETRIES JsonRejected)]
        ++ rest)).
Proof.
  intros secret url label net c k r Hk Hmade Hn Hok st rq. split.
  - intros data Hj.
    rewrite (run_from secret url label net c k Hk Hmade).
    rewrite (loop_success _ _ _ _ _ _ _ r data) by (lia || assumption).
    reflexivity.
  - intros Hj.
    assert (Hc : caught (net k) = Some JsonRejected).
    { rewrite Hn. simpl. rewrite Hok, Hj. reflexivity. }
    split.
    + intros Hlt. apply run_continues; [lia|exact Hmade|exact Hc].
    + intros ->.
      rewrite (run_from secret url label net c MAX_RETRIES Hk Hmade).
      rewrite (loop_exhausted _ _ _ _ _ _ JsonRejected Hc).
      cbn zeta. fold st. fold rq. eexists. eexists.
      split; reflexivity.
Qed.

Lemma ok_response_ends_run_when_body_parses_witness :
  let data := Js.Obj [("nextCheckInSeconds", Js.Num (Js.lit 42))] in
  let net := script [Rejects TimedOut] (Resolves (resp200 data)) in
  let bad := always (Resolves resp200_unparsable) in
  (1 <= 2 <= MAX_RETRIES /\
   made net 2 /\
   net 2 = Resolves (resp200 data) /\
   ok (resp200 data) = true /\
   json (resp200 data) = Some data /\
   exists st',
     postWithRetry "s3cret" "https://dash/api/members" "members" net 7
     = Some ({| res_ok := true; res_data := Some data |}, st') /\
     count st' = 0 /\
     requests (trace st') = 2%nat) /\
  (1 <= 3 <= MAX_RETRIES /\
   made bad 3 /\
   bad 3 = Resolves resp200_unparsable /\
   ok resp200_unparsable = true /\
   json resp200_unparsable = None /\
   exists st',
     postWithRetry "s3cret" "https://dash/api/members" "members" bad 7
     = Some (failure, st')).
Proof.
  intros data net bad.
  assert (H2 : 1 <= 2 <= MAX_RETRIES) by (unfold MAX_RETRIES; lia).
  assert (H3 : 1 <= 3 <= MAX_RETRIES) by (unfold MAX_RETRIES; lia).
  assert (Hmade : made net 2).
  { intros j Hj. assert (j = 1) as -> by lia. discriminate. }
  assert (Hbad : made bad 3) by (intros j Hj; discriminate).
  split.
  - split; [exact H2|]. split; [exact Hmade|].
    split; [reflexivity|]. split; [reflexivity|]. split; [reflexivity|].
    destruct (ok_response_ends_run_when_body_parses "s3cret"
                "https://dash/api/members" "members" net 7 2 (resp200 data)
                H2 Hmade eq_refl eq_refl) as [Hparsed _].
    eexists. split; [exact (Hparsed data eq_refl)|].
    split; reflexivity.
  - split; [exact H3|]. split; [exact Hbad|].
    split; [reflexivity|]. split; [reflexivity|]. split; [reflexivity|].
    destruct (ok_response_ends_run_when_body_parses "s3cret"
                "https://dash/api/members" "members" bad 7 3
                resp200_unparsable H3 Hbad eq_refl eq_refl) as [_ Hnot].
    destruct (Hnot eq_refl) as [_ Hlast].
    destruct (Hlast eq_refl) as (st' & rest & Hrun & _).
    exists st'. exact Hrun.
Defined.

(** ** The failure counter *)

Section Counter.

Variables secret url label : string.
Variable net : Z -> FetchOutcome.

Lemma loop_counter fuel :
  bodies_parse net ->
  forall attempt st res st',
    attempt <= MAX_RETRIES ->
    loop secret url label net fuel attempt st = Some (res, st') ->
    (res_ok res = true -> count st' = 0) /\
    (res_ok res = false -> count st' = count st + 1).
Proof.
  intros Hbodies.
  induction fuel as [|fuel IH]; intros attempt st res st' Hle H;
    [discriminate|].
  destruct (caught (net attempt)) as [err|] eqn:Hc.
  - assert (Hsame : count_after_try (net attempt) (count st) = count st).
    { unfold count_after_try. destruct (net attempt) as [|r] eqn:Hn;
        [reflexivity|].
      destruct (ok r) eqn:Hok; [|reflexivity].
      exfalso. simpl in Hc. rewrite Hok in Hc. simpl in Hc.
      destruct (json r) eqn:Hj; [discriminate|].
      exact (Hbodies _ _ Hn Hok Hj). }
    destruct (Z.eq_dec attempt MAX_RETRIES) as [->|Hne].
    + rewrite (loop_exhausted _ _ _ _ _ _ err Hc) in H.
      cbn zeta in H. rewrite Hsame in H.
      injection H as <- <-. simpl. split; [discriminate|reflexivity].
    + rewrite (loop_caught _ _ _ _ _ _ _ err) in H by (lia || exact Hc).
      apply IH in H; [|lia]. rewrite Hsame in H. exact H.
  - destruct (caught_none _ Hc) as (r & Hn & [[Hok Hs]|[Hok [d Hj]]]).
    + rewrite (loop_rejected _ _ _ _ _ _ _ r) in H by assumption.
      injection H as <- <-. simpl. split; [discriminate|reflexivity].
    + rewrite (loop_success _ _ _ _ _ _ _ r d) in H by assumption.
      injection H as <- <-. simpl. split; [reflexivity|discriminate].
Qed.

(** On the runs in which every answer of successful status has a body
    that parses, the counter follows the rule of C3: 0 after a success,
    one more after a failed sequence, and never negative. *)
Lemma counter_rule c res st' :
  bodies_parse net ->
  0 <= c ->
  postWithRetry secret url label net c = Some (res, st') ->
  (res_ok res = true -> count st' = 0) /\
  (res_ok res = false -> count st' = c + 1) /\
  0 <= count st'.
Proof.
  intros Hbodies Hc H.
  assert (H1 : 1 <= MAX_RETRIES) by (unfold MAX_RETRIES; lia).
  destruct (loop_counter _ Hbodies _ _ _ _ H1 H) as [Hs Hf].
  simpl in Hf. split; [exact Hs|]. split; [exact Hf|].
  destruct (res_ok res); [rewrite Hs by reflexivity|rewrite Hf by reflexivity];
    lia.
Qed.

End Counter.

(** C3.  The code at the failing input: the counter holds 4; try 1 gets a
    200 whose body does not parse, tries 2 and 3 get a 500.  The sequence
    fails after its three tries, but the counter ends at 1, not at 5: the
    first try, an intermediate try of a failed sequence, has reset it. *)
Theorem counter_reset_by_failed_try :
  let net := script [Resolves resp200_unparsable] (Resolves resp500) in
  exists st',
    postWithRetry "s3cret" "https://dash/api/cron" "orders" net 4
    = Some (failure, st') /\
    requests (trace st') = 3%nat /\
    count st' = 1 /\
    count st' <> 4 + 1 /\
    count (entering "s3cret" "https://dash/api/cron" "orders" net 1 4) = 0.
Proof.
  intros net. eexists. split; [reflexivity|].
  repeat split. discriminate.
Qed.

(** ** Escalation *)

(** The sibling path: a sequence that fails on its last try writes the
    escalated warning right after the line of the failure exactly when the
    incremented counter has reached the threshold. *)
Lemma exhausted_failure_escalates :
  forall (secret url label : string) (net : Z -> FetchOutcome) (c : Z)
         (err : Thrown),
    made net MAX_RETRIES ->
    caught (net MAX_RETRIES) = Some err ->
    let st := entering secret url label net 2 c in
    let c' := count_after_try (net MAX_RETRIES) (count st) + 1 in
    postWithRetry secret url label net c =
    Some (failure,
          {| count := c';
             trace := trace st ++
               [Fetch (request secret url label);
                ConsoleError (ExhaustedLine label MAX_RETRIES err)] ++
               (if c' >=? CONSECUTIVE_FAILURE_THRESHOLD
                then [ConsoleError (WarningLine label c')] else []) |}).
Proof.
  intros secret url label net c err Hmade Hc st c'.
  rewrite (run_from secret url label net c MAX_RETRIES
             ltac:(unfold MAX_RETRIES; lia) Hmade).
  rewrite (loop_exhausted _ _ _ _ _ _ err Hc). reflexivity.
Qed.

(** C1.  The code at the failing input: the counter holds 4 and the first
    try gets a 401.  The counter is incremented to 5, which reaches the
    threshold, and the run ends with the line of the non-retryable
    failure: no escalated warning is written. *)
Theorem non_retryable_failure_skips_warning :
  let net := always (Resolves resp401) in
  exists st',
    postWithRetry "s3cret" "https://dash/api/cron" "orders" net 4
    = Some (failure, st') /\
    count st' = 5 /\
    CONSECUTIVE_FAILURE_THRESHOLD <= count st' /\
    trace st' =
    [Fetch (request "s3cret" "https://dash/api/cron" "orders");
     ConsoleError (NotRetryableLine "orders" 401 "Unauthorized")] /\
    existsb is_warning (trace st') = false.
Proof.
  intros net. eexists. split; [reflexivity|].
  repeat split. discriminate.
Qed.

(** ** The adaptive scheduler *)

Lemma default_interval : DEFAULT_MEMBERS_INTERVAL = Js.lit 300000.
Proof. vm_compute. reflexivity. Qed.

Lemma get_truthy data k v : Js.get data k = Some v -> Js.truthy data = true.
Proof. destruct data; simpl; try discriminate. reflexivity. Qed.

(** The delay is the default, unless the result is a success that carries
    a number greater than 0 in the field. *)
Lemma nextInterval_cases result :
  (exists data x,
      res_ok result = true /\ res_data result = Some data /\
      Js.get data "nextCheckInSeconds" = Some (Js.Num x) /\
      Js.gtb x (Js.lit 0) = true /\
      nextInterval result = Js.mul x (Js.lit 1000)) \/
  nextInterval result = DEFAULT_MEMBERS_INTERVAL.
Proof.
  unfold nextInterval, usable_data.
  destruct (res_ok result) eqn:Hok; [|right; reflexivity].
  destruct (res_data result) as [data|] eqn:Hd; [|right; reflexivity].
  destruct (Js.truthy data); [|right; reflexivity].
  destruct (Js.get data "nextCheckInSeconds") as [v|] eqn:Hg;
    [|right; reflexivity].
  destruct v as [|b|x|s|items|props]; try (right; reflexivity).
  destruct (Js.gtb x (Js.lit 0)) eqn:Hgt; [|right; reflexivity].
  left. exists data, x. repeat split; assumption.
Qed.

Lemma nextInterval_not_nan result : Js.is_nan (nextInterval result) = false.
Proof.
  destruct (nextInterval_cases result)
    as [(data & x & _ & _ & _ & Hgt & ->) | ->].
  - apply mul_pos_not_nan. exact Hgt.
  - reflexivity.
Qed.

(** An invocation of [syncMembers] completes, and ends by arming the timer
    with [nextInterval] of the result of the executor. *)
Lemma syncMembers_schedules secret url net c :
  exists result st0 st,
    postWithRetry secret url "members" net c = Some (result, st0) /\
    syncMembers secret url net c = Some st /\
    count st = count st0 /\
    scheduled st = Some (nextInterval result).
Proof.
  destruct (loop_total secret url "members" net (S (Z.to_nat MAX_RETRIES)) 1
              {| count := c; trace := [] |}) as [[result st0] H];
    [lia|unfold MAX_RETRIES; lia|].
  exists result, st0. unfold syncMembers, postWithRetry. rewrite H.
  eexists. split; [reflexivity|]. split; [reflexivity|].
  unfold scheduled, emit. cbn [trace count].
  split; [destruct (usable_data result); reflexivity|].
  rewrite last_last. reflexivity.
Qed.

(** C6.  Every invocation of the members task completes and arms the
    timer of the next invocation.  If the outcome is a success whose data
    holds, in the field [nextCheckInSeconds], a number greater than 0, the
    delay is that number times 1000; in every other case (a failure, a
    success without the field, a value that is not a number or not
    greater than 0) the delay is the default, 300000 ms. *)
Theorem adaptive_next_delay :
  forall (secret url : string) (net : Z -> FetchOutcome) (c : Z),
  exists result st0 st,
    postWithRetry secret url "members" net c = Some (result, st0) /\
    syncMembers secret url net c = Some st /\
    scheduled st = Some (nextInterval result) /\
    (forall data x,
        res_ok result = true ->
        res_data result = Some data ->
        Js.get data "nextCheckInSeconds" = Some (Js.Num x) ->
        Js.gtb x (Js.lit 0) = true ->
        scheduled st = Some (Js.mul x (Js.lit 1000))) /\
    ((~ exists data x,
          res_ok result = true /\ res_data result = Some data /\
          Js.get data "nextCheckInSeconds" = Some (Js.Num x) /\
          Js.gtb x (Js.lit 0) = true) ->
     scheduled st = Some (Js.lit 300000)).
Proof.
  intros secret url net c.
  destruct (syncMembers_schedules secret url net c)
    as (result & st0 & st & Hrun & Hsync & _ & Hsched).
  exists result, st0, st.
  split; [exact Hrun|]. split; [exact Hsync|]. split; [exact Hsched|].
  rewrite Hsched. split.
  - intros data x Hok Hd Hg Hgt. f_equal.
    unfold nextInterval, usable_data.
    rewrite Hok, Hd, (get_truthy _ _ _ Hg), Hg, Hgt. reflexivity.
  - intros Hnot. f_equal.
    destruct (nextInterval_cases result)
      as [(data & x & Hok & Hd & Hg & Hgt & _) | ->].
    + exfalso. apply Hnot. exists data, x. repeat split; assumption.
    + exact default_interval.
Qed.

Lemma adaptive_next_delay_witness :
  let data := Js.Obj [("nextCheckInSeconds", Js.Num (Js.lit 42))] in
  exists st,
    syncMembers "s3cret" "https://dash/api/members"
                (always (Resolves (resp200 data))) 3 = Some st /\
    scheduled st = Some (Js.lit 42000).
Proof.
  intros data.
  destruct (adaptive_next_delay "s3cret" "https://dash/api/members"
              (always (Resolves (resp200 data))) 3)
    as (result & st0 & st & Hrun & Hsync & _ & Hpos & _).
  exists st. split; [exact Hsync|].
  injection Hrun as <- _.
  exact (Hpos data (Js.lit 42) eq_refl eq_refl eq_refl eq_refl).
Defined.

(** The cases of the specification: 42 seconds, a negative number, a
    string, no field, and a failure. *)
Example next_delay_42 :
  nextInterval
    {| res_ok := true;
       res_data := Some (Js.Obj [("nextCheckInSeconds", Js.Num (Js.lit 42))]) |}
  = Js.lit 42000.
Proof. vm_compute. reflexivity. Qed.

Example next_delay_negative :
  nextInterval
    {| res_ok := true;
       res_data := Some (Js.Obj [("nextCheckInSeconds", Js.Num (Js.lit (-5)))]) |}
  = Js.lit 300000.
Proof. vm_compute. reflexivity. Qed.

Example next_delay_string :
  nextInterval
    {| res_ok := true;
       res_data := Some (Js.Obj [("nextCheckInSeconds", Js.Str "42")]) |}
  = Js.lit 300000.
Proof. vm_compute. reflexivity. Qed.

Example next_delay_no_field :
  nextInterval {| res_ok := true; res_data := Some (Js.Obj []) |}
  = Js.lit 300000.
Proof. vm_compute. reflexivity. Qed.

Example next_delay_failure : nextInterval failure = Js.lit 300000.
Proof. vm_compute. reflexivity. Qed.

(** C10.  A success whose data holds NaN in [nextCheckInSeconds] (a value
    of type number) gets the default delay of 300000 ms, because
    [NaN > 0] is false; and the delay handed to the timer is never NaN,
    whatever the result of the executor. *)
Theorem nan_check_in_falls_back :
  (forall result data,
      res_ok result = true ->
      res_data result = Some data ->
      Js.get data "nextCheckInSeconds" = Some (Js.Num S754_nan) ->
      nextInterval result = Js.lit 300000) /\
  (forall result, Js.is_nan (nextInterval result) = false) /\
  (forall secret url net c,
      exists st ms,
        syncMembers secret url net c = Some st /\
        scheduled st = Some ms /\ Js.is_nan ms = false).
Proof.
  split; [|split].
  - intros result data Hok Hd Hg.
    unfold nextInterval, usable_data.
    rewrite Hok, Hd, (get_truthy _ _ _ Hg), Hg. vm_compute. reflexivity.
  - exact nextInterval_not_nan.
  - intros secret url net c.
    destruct (syncMembers_schedules secret url net c)
      as (result & st0 & st & _ & Hsync & _ & Hsched).
    exists st, (nextInterval result).
    split; [exact Hsync|]. split; [exact Hsched|].
    apply nextInterval_not_nan.
Qed.

Lemma nan_check_in_falls_back_witness :
  let data := Js.Obj [("nextCheckInSeconds", Js.Num S754_nan)] in
  let result := {| res_ok := true; res_data := Some data |} in
  res_ok result = true /\
  res_data result = Some data /\
  Js.get data "nextCheckInSeconds" = Some (Js.Num S754_nan) /\
  nextInterval result = Js.lit 300000.
Proof.
  intros data result.
  split; [reflexivity|]. split; [reflexivity|]. split; [reflexivity|].
  apply (proj1 nan_check_in_falls_back result data); reflexivity.
Defined.

(** ** The process *)

Lemma step_exited p ev code : exit_code p = Some code -> step p ev = p.
Proof. intros H. unfold step. rewrite H. reflexivity. Qed.

Lemma run_exited evs : forall p code, exit_code p = Some code -> run p evs = p.
Proof.
  induction evs as [|ev evs IH]; intros p code H; [reflexivity|].
  unfold run in *. simpl. rewrite (step_exited p ev code H).
  apply (IH p code H).
Qed.

Lemma run_snoc p evs ev : run p (evs ++ [ev]) = step (run p evs) ev.
Proof. unfold run. rewrite fold_left_app. reflexivity. Qed.

Lemma startup_tracked env : timers_tracked (startup env).
Proof.
  unfold startup, timers_tracked.
  destruct (not_set (env_CRON_SECRET env)); [intros t []|].
  destruct (not_set (env_DASHBOARD_URL env)); [intros t []|].
  destruct (not_set (env_MEMBERS_URL env)); [intros t []|].
  simpl. intros t [<-|[]]. left. reflexivity.
Qed.

Lemma has_timer_In i ts : has_timer i ts = true -> In i ts.
Proof.
  unfold has_timer. rewrite existsb_exists.
  intros (t & Hin & Heq). apply Nat.eqb_eq in Heq. subst. exact Hin.
Qed.

(** While the process runs, a turn of the event loop keeps the armed
    timers in the two variables. *)
Lemma step_tracked p ev :
  timers_tracked p -> exit_code (step p ev) = None ->
  timers_tracked (step p ev).
Proof.
  intros Hinv. unfold step.
  destruct (exit_code p) eqn:Hexit; [intros _; exact Hinv|].
  destruct ev as [s|reason|error| | |next]; try discriminate.
  - destruct (has_timer (ordersIntervalId p) (timers p));
      intros _; exact Hinv.
  - destruct (membersTimeoutId p) as [i|] eqn:Hm; [|intros _; exact Hinv].
    destruct (has_timer i (timers p)); [|intros _; exact Hinv].
    intros _ t Ht. cbn [timers ordersIntervalId] in *.
    apply in_remove in Ht. destruct Ht as [Ht Hne].
    destruct (Hinv t Ht) as [Ho|[_ Hs]]; [left; exact Ho|].
    congruence.
  - destruct (members_running p) eqn:Hrun; [|intros _; exact Hinv].
    intros _ t Ht.
    cbn [timers ordersIntervalId members_running membersTimeoutId] in *.
    destruct Ht as [<-|Ht]; [right; split; reflexivity|].
    destruct (Hinv t Ht) as [Ho|[Hr _]]; [left; exact Ho|congruence].
Qed.

Lemma run_running p evs ev :
  exit_code (run p (evs ++ [ev])) = None -> exit_code (run p evs) = None.
Proof.
  rewrite run_snoc. destruct (exit_code (run p evs)) as [code|] eqn:H;
    [|reflexivity].
  rewrite (step_exited _ ev code H), H. discriminate.
Qed.

Lemma run_tracked env evs :
  exit_code (run (startup env) evs) = None ->
  timers_tracked (run (startup env) evs).
Proof.
  induction evs as [|ev evs IH] using rev_ind; intros H.
  - apply startup_tracked.
  - rewrite run_snoc in H |- *.
    apply step_tracked; [|exact H].
    apply IH. rewrite <- run_snoc in H. exact (run_running _ _ _ H).
Qed.

Lemma no_member_nil (l : list nat) : (forall t, ~ In t l) -> l = [].
Proof.
  destruct l as [|a l]; [reflexivity|].
  intros H. exfalso. apply (H a). left. reflexivity.
Qed.

(** [shutdown] leaves no scheduler timer armed. *)
Lemma shutdown_cancels_all s p :
  timers_tracked p -> timers (shutdown s p) = [].
Proof.
  intros Hinv. apply no_member_nil. intros t Ht.
  cbn [shutdown timers] in Ht. unfold cancel in Ht.
  destruct (membersTimeoutId p) as [i|] eqn:Hm.
  - apply in_remove in Ht. destruct Ht as [Ht Hne].
    apply in_remove in Ht. destruct Ht as [Ht Hno].
    destruct (Hinv t Ht) as [Ho|[_ Hs]]; congruence.
  - apply in_remove in Ht. destruct Ht as [Ht Hno].
    destruct (Hinv t Ht) as [Ho|[_ Hs]]; congruence.
Qed.

Lemma startup_unconfigured env :
  configured env = false -> exit_code (startup env) = Some 1.
Proof.
  unfold configured, startup. intros H.
  destruct (not_set (env_CRON_SECRET env)); [reflexivity|].
  destruct (not_set (env_DASHBOARD_URL env)); [reflexivity|].
  destruct (not_set (env_MEMBERS_URL env)); [reflexivity|discriminate H].
Qed.

(** C7.  If a required configuration value (the secret, or one of the two
    urls) is not set, the script writes the message that names such a
    value and exits with code 1; nothing else is done: no timer is armed,
    no task is invoked (so no request is sent), and nothing happens
    afterwards. *)
Theorem missing_configuration_exits :
  forall env : Env,
    configured env = false ->
    exists name value,
      In (name, value) (required env) /\
      not_set value = true /\
      effects (startup env) =
      [PError (name ++ " is not set. Please set it in the environment variables.")%string;
       PExit 1] /\
      exit_code (startup env) = Some 1 /\
      timers (startup env) = [] /\
      existsb is_invoke (effects (startup env)) = false /\
      existsb is_timer_start (effects (startup env)) = false /\
      forall evs, run (startup env) evs = startup env.
Proof.
  intros env Hconf. unfold configured in Hconf. unfold startup, required.
  destruct (not_set (env_CRON_SECRET env)) eqn:Hs.
  { exists "CRON_SECRET", (env_CRON_SECRET env).
    split; [simpl; auto|]. split; [exact Hs|].
    repeat (split; [reflexivity|]).
    intros evs. apply (run_exited evs _ 1). reflexivity. }
  destruct (not_set (env_DASHBOARD_URL env)) eqn:Ho.
  { exists "DASHBOARD_URL", (env_DASHBOARD_URL env).
    split; [simpl; auto|]. split; [exact Ho|].
    repeat (split; [reflexivity|]).
    intros evs. apply (run_exited evs _ 1). reflexivity. }
  destruct (not_set (env_MEMBERS_URL env)) eqn:Hm; [|discriminate Hconf].
  exists "MEMBERS_URL", (env_MEMBERS_URL env).
  split; [simpl; auto|]. split; [exact Hm|].
  repeat (split; [reflexivity|]).
  intros evs. apply (run_exited evs _ 1). reflexivity.
Qed.

Lemma missing_configuration_exits_witness :
  let env := {| env_DASHBOARD_URL := Some "https://dash/api/cron";
                env_MEMBERS_URL := Some "https://dash/api/members";
                env_CRON_SECRET := None |} in
  configured env = false /\
  exit_code (startup env) = Some 1 /\
  existsb is_invoke (effects (startup env)) = false.
Proof.
  intros env.
  assert (H : configured env = false) by reflexivity.
  split; [exact H|].
  destruct (missing_configuration_exits env H)
    as (name & value & _ & _ & _ & Hcode & _ & Hinv & _).
  split; [exact Hcode|exact Hinv].
Defined.

(** C8.  The exit code of the process.  With a configuration value
    missing it is 1, whatever happens next.  While the process runs, an
    interrupt or terminate signal makes it write the line that names the
    signal, cancel the interval of the orders task and the pending
    time-out of the members task, which leaves no scheduler timer armed,
    and then exit with code 0; an unhandled rejection or an uncaught
    exception makes it write the error and exit with code 1.  Once set,
    the exit code does not change. *)
Theorem exit_codes :
  forall (env : Env) (evs : list ProcEvent),
    let p := run (startup env) evs in
    (configured env = false -> exit_code p = Some 1) /\
    (exit_code p = None ->
     (forall s,
         let p' := step p (EvSignal s) in
         exit_code p' = Some 0 /\
         timers p' = [] /\
         effects p' =
         effects p ++
         [PLog ("Received " ++ signal_name s ++ ", shutting down...")%string;
          PClearInterval (ordersIntervalId p);
          PClearTimeout (membersTimeoutId p);
          PExit 0]) /\
     (forall reason,
         let p' := step p (EvUnhandledRejection reason) in
         exit_code p' = Some 1 /\
         effects p' =
         effects p ++
         [PError ("Unhandled promise rejection: " ++ reason)%string;
          PExit 1]) /\
     (forall error,
         let p' := step p (EvUncaughtException error) in
         exit_code p' = Some 1 /\
         effects p' =
         effects p ++
         [PError ("Uncaught exception: " ++ error)%string; PExit 1])) /\
    (forall code more,
        exit_code p = Some code ->
        (code = 0 \/ code = 1) /\ exit_code (run p more) = Some code).
Proof.
  intros env evs p. split; [|split].
  - intros Hconf. pose proof (startup_unconfigured env Hconf) as Hcode.
    subst p. rewrite (run_exited evs _ 1 Hcode). exact Hcode.
  - intros Hrun.
    pose proof (run_tracked env evs Hrun) as Hinv. fold p in Hinv.
    split; [|split].
    + intros s p'. subst p'. unfold step. rewrite Hrun.
      split; [reflexivity|].
      split; [apply shutdown_cancels_all; exact Hinv|reflexivity].
    + intros reason p'. subst p'. unfold step. rewrite Hrun.
      split; reflexivity.
    + intros error p'. subst p'. unfold step. rewrite Hrun.
      split; reflexivity.
  - intros code more Hcode.
    split; [|rewrite (run_exited more p code Hcode); exact Hcode].
    subst p. clear more. revert code Hcode.
    induction evs as [|ev evs IH] using rev_ind; intros code Hcode.
    + unfold run in Hcode. simpl in Hcode. unfold startup in Hcode.
      destruct (not_set (env_CRON_SECRET env));
        [injection Hcode as <-; right; reflexivity|].
      destruct (not_set (env_DASHBOARD_URL env));
        [injection Hcode as <-; right; reflexivity|].
      destruct (not_set (env_MEMBERS_URL env));
        [injection Hcode as <-; right; reflexivity|discriminate].
    + rewrite run_snoc in Hcode.
      destruct (exit_code (run (startup env) evs)) as [code'|] eqn:Hprev.
      * rewrite (step_exited _ ev code' Hprev) in Hcode.
        apply IH. congruence.
      * unfold step in Hcode. rewrite Hprev in Hcode.
        destruct ev as [s|reason|error| | |next]; simpl in Hcode.
        -- injection Hcode as <-. left; reflexivity.
        -- injection Hcode as <-. right; reflexivity.
        -- injection Hcode as <-. right; reflexivity.
        -- destruct (has_timer _ _); simpl in Hcode; congruence.
        -- destruct (membersTimeoutId _); [|congruence].
           destruct (has_timer _ _); simpl in Hcode; congruence.
        -- destruct (members_running _); simpl in Hcode; congruence.
Qed.

Lemma exit_codes_witness :
  let env := {| env_DASHBOARD_URL := Some "https://dash/api/cron";
                env_MEMBERS_URL := Some "https://dash/api/members";
                env_CRON_SECRET := Some "s3cret" |} in
  let bare := {| env_DASHBOARD_URL := Some "https://dash/api/cron";
                 env_MEMBERS_URL := None;
                 env_CRON_SECRET := Some "s3cret" |} in
  let evs := [EvMembersDone (Js.lit 300000); EvOrdersTick] in
  let p := run (startup env) evs in
  (exit_code p = None /\
   timers p = [1%nat; 0%nat] /\
   exit_code (step p (EvSignal SIGTERM)) = Some 0 /\
   timers (step p (EvSignal SIGTERM)) = [] /\
   exit_code (step p (EvUncaughtException "boom")) = Some 1) /\
  (configured bare = false /\
   exit_code (run (startup bare) [EvSignal SIGINT]) = Some 1).
Proof.
  intros env bare evs p. split.
  - assert (Hrun : exit_code p = None) by reflexivity.
    split; [exact Hrun|]. split; [reflexivity|].
    destruct (exit_codes env evs) as (_ & Hrunning & _).
    destruct (Hrunning Hrun) as (Hsig & _ & Hexc).
    destruct (Hsig SIGTERM) as (H0 & Hnone & _).
    destruct (Hexc "boom") as (H1 & _).
    split; [exact H0|]. split; [exact Hnone|exact H1].
  - assert (Hconf : configured bare = false) by reflexivity.
    split; [exact Hconf|].
    exact (proj1 (exit_codes bare [EvSignal SIGINT]) Hconf).
Defined.

(** ** The executor: every run, by the try that decides it *)

Section Decided.

Variables secret url label : string.
Variable net : Z -> FetchOutcome.

Local Abbreviation run' := (postWithRetry secret url label net).
Local Abbreviation enter := (entering secret url label net).
Local Abbreviation rq := (request secret url label).

Lemma decisive_spec :
  1 <= decisive net <= MAX_RETRIES /\
  made net (decisive net) /\
  (caught (net (decisive net)) = None \/ decisive net = MAX_RETRIES).
Proof.
  unfold decisive. change (Z.to_nat (MAX_RETRIES - 1)) with 2%nat.
  cbn [decisive_from]. change (1 + 1) with 2. change (2 + 1) with 3.
  destruct (caught (net 1)) as [e1|] eqn:E1.
  - destruct (caught (net 2)) as [e2|] eqn:E2.
    + split; [unfold MAX_RETRIES; lia|]. split; [|right; reflexivity].
      intros j Hj. assert (Hj' : j = 1 \/ j = 2) by lia.
      destruct Hj' as [-> | ->]; congruence.
    + split; [unfold MAX_RETRIES; lia|]. split; [|left; exact E2].
      intros j Hj. assert (j = 1) as -> by lia. congruence.
  - split; [unfold MAX_RETRIES; lia|]. split; [|left; exact E1].
    intros j Hj. lia.
Qed.

(** The effects before the deciding try: one request, one retry line and
    one wait for each earlier try, the waits being of 2 s, then 4 s. *)
Lemma enter_shape c k :
  1 <= k <= MAX_RETRIES -> made net k ->
  (k = 1 /\ trace (enter (Z.to_nat (k - 1)) c) = []) \/
  (k = 2 /\ exists e1,
      trace (enter (Z.to_nat (k - 1)) c) =
      [Fetch rq; ConsoleError (RetryLine label 1 MAX_RETRIES 2 e1);
       Sleep 2000]) \/
  (k = 3 /\ exists e1 e2,
      trace (enter (Z.to_nat (k - 1)) c) =
      [Fetch rq; ConsoleError (RetryLine label 1 MAX_RETRIES 2 e1);
       Sleep 2000;
       Fetch rq; ConsoleError (RetryLine label 2 MAX_RETRIES 4 e2);
       Sleep 4000]).
Proof.
  intros Hk Hmade. unfold MAX_RETRIES in Hk.
  assert (Hcases : k = 1 \/ k = 2 \/ k = 3) by lia.
  destruct Hcases as [-> | [-> | ->]].
  - left. split; reflexivity.
  - right; left. split; [reflexivity|].
    assert (H1 : caught (net 1) <> None) by (apply Hmade; lia).
    change (Z.to_nat (2 - 1)) with 1%nat. cbn [entering].
    change (Z.of_nat 1) with 1.
    destruct (caught (net 1)) as [e1|]; [|congruence].
    exists e1. reflexivity.
  - right; right. split; [reflexivity|].
    assert (H1 : caught (net 1) <> None) by (apply Hmade; lia).
    assert (H2 : caught (net 2) <> None) by (apply Hmade; lia).
    change (Z.to_nat (3 - 1)) with 2%nat. cbn [entering].
    change (Z.of_nat 1) with 1. change (Z.of_nat 2) with 2.
    destruct (caught (net 1)) as [e1|]; [|congruence].
    destruct (caught (net 2)) as [e2|]; [|congruence].
    exists e1, e2. reflexivity.
Qed.

(** Before the deciding try the counter is what it was, or 0. *)
Lemma enter_count c (n : nat) :
  count (enter n c) = c \/ count (enter n c) = 0.
Proof.
  induction n as [|n IH]; [left; reflexivity|].
  cbn [entering].
  destruct (caught (net (Z.of_nat (S n)))); [|exact IH].
  cbn [count]. unfold count_after_try.
  destruct (net (Z.of_nat (S n))) as [|r]; [exact IH|].
  destruct (ok r); [right; reflexivity|exact IH].
Qed.

(** Every run ends in one of three ways, at the deciding try [k]: a
    success, a non-retryable rejection, or the exhaustion of the tries. *)
Lemma run_decided c :
  let k := decisive net in
  let st := enter (Z.to_nat (k - 1)) c in
  (exists r data,
      net k = Resolves r /\ ok r = true /\ json r = Some data /\
      run' c =
      Some ({| res_ok := true; res_data := Some data |},
            {| count := 0; trace := trace st ++ [Fetch rq] |})) \/
  (exists r,
      net k = Resolves r /\ ok r = false /\
      non_retryable (status r) = true /\
      run' c =
      Some (failure,
            {| count := count st + 1;
               trace := trace st ++
                 [Fetch rq;
                  ConsoleError
                    (NotRetryableLine label (status r) (statusText r))] |})) \/
  (exists err,
      k = MAX_RETRIES /\ caught (net k) = Some err /\
      run' c =
      Some (failure,
            {| count := count_after_try (net k) (count st) + 1;
               trace := trace st ++
                 [Fetch rq;
                  ConsoleError (ExhaustedLine label MAX_RETRIES err)] ++
                 (if count_after_try (net k) (count st) + 1
                     >=? CONSECUTIVE_FAILURE_THRESHOLD
                  then [ConsoleError
                          (WarningLine label
                             (count_after_try (net k) (count st) + 1))]
                  else []) |})).
Proof.
  intros k st.
  destruct decisive_spec as (Hk & Hmade & Hdec). fold k in Hk, Hmade, Hdec.
  rewrite (run_from secret url label net c k Hk Hmade). fold st.
  assert (Hcase : (exists err, caught (net k) = Some err) \/
                  caught (net k) = None)
    by (destruct (caught (net k)); eauto).
  destruct Hcase as [[err Hc]|Hc].
  - destruct Hdec as [Hnone|Hlast]; [congruence|].
    right; right. exists err. split; [exact Hlast|]. split; [exact Hc|].
    clearbody k. subst k.
    rewrite (loop_exhausted _ _ _ _ _ _ err Hc). reflexivity.
  - destruct (caught_none _ Hc) as (r & Hn & [[Hok Hs]|[Hok [d Hj]]]).
    + right; left. exists r. repeat (split; [assumption|]).
      rewrite (loop_rejected _ _ _ _ _ _ _ r) by (lia || assumption).
      reflexivity.
    + left. exists r, d. repeat (split; [assumption|]).
      rewrite (loop_success _ _ _ _ _ _ _ r d) by (lia || assumption).
      reflexivity.
Qed.

(** The number of requests of a run is the number of the deciding try. *)
Lemma run_requests c res st' :
  run' c = Some (res, st') ->
  Z.of_nat (requests (trace st')) = decisive net.
Proof.
  intros H.
  destruct decisive_spec as (Hk & Hmade & _).
  destruct (entering_counts secret url label net c
              (Z.to_nat (decisive net - 1))) as [Hr _].
  { replace (Z.of_nat (Z.to_nat (decisive net - 1)) + 1)
      with (decisive net) by lia. exact Hmade. }
  destruct (run_decided c) as
    [(r & d & _ & _ & _ & Hrun) | [(r & _ & _ & _ & Hrun)
                                  | (err & _ & _ & Hrun)]];
    rewrite Hrun in H; injection H as _ <-; cbn [trace];
    rewrite requests_app, Hr.
  - unfold requests; simpl; lia.
  - unfold requests; simpl; lia.
  - destruct (_ >=? _); unfold requests; simpl; lia.
Qed.

End Decided.

(** The cases of a run: the effects before the deciding try, then the way
    the run ends. *)
Ltac run_cases secret url label net c Hrun :=
  let Hk := fresh "Hk" in
  let Hmade := fresh "Hmade" in
  let Hshape := fresh "Hshape" in
  let Hcount := fresh "Hcount" in
  destruct (decisive_spec net) as (Hk & Hmade & _);
  pose proof (enter_shape secret url label net c (decisive net) Hk Hmade)
    as Hshape;
  pose proof (enter_count secret url label net c
                (Z.to_nat (decisive net - 1))) as Hcount;
  destruct (run_decided secret url label net c) as
    [(?r & ?data & ?Hn & ?Hok & ?Hj & Hrun)
    |[(?r & ?Hn & ?Hok & ?Hs & Hrun)
     |(?err & ?Hlast & ?Hc & Hrun)]];
  destruct Hshape as [[?Hd Hshape]|[[?Hd [?e1 Hshape]]
                                   |[?Hd [?e1 [?e2 Hshape]]]]];
  rewrite Hshape in Hrun; try (exfalso; unfold MAX_RETRIES in *; lia).

(** ** More on the executor *)

(** X1.  Every request of a run is the request of the task: a POST to the url
    of the task, with the bearer token of the secret, the JSON content
    type, the message that names the task, and the time-out of 30 s. *)
Theorem requests_are_the_task_request :
  forall (secret url label : string) (net : Z -> FetchOutcome) (c : Z),
  exists res st',
    postWithRetry secret url label net c = Some (res, st') /\
    forall r, In (Fetch r) (trace st') ->
      req_url r = url /\
      req_method r = "POST" /\
      req_content_type r = "application/json" /\
      req_authorization r = ("Bearer " ++ secret)%string /\
      req_message r = ("Sync " ++ label)%string /\
      req_timeout r = 30000.
Proof.
  intros secret url label net c.
  run_cases secret url label net c Hrun;
    (eexists; eexists; split; [exact Hrun|]);
    cbn [trace app]; intros rq' Hin;
    try (destruct (_ >=? _));
    simpl in Hin;
    repeat (destruct Hin as [Hin|Hin];
            [try discriminate Hin; injection Hin as <-;
             repeat split|]);
    try contradiction.
Qed.

Lemma requests_are_the_task_request_witness :
  exists res st',
    postWithRetry "s3cret" "https://dash/api/cron" "orders"
                  (always (Resolves resp500)) 0 = Some (res, st') /\
    In (Fetch (request "s3cret" "https://dash/api/cron" "orders"))
       (trace st') /\
    req_authorization (request "s3cret" "https://dash/api/cron" "orders")
    = "Bearer s3cret".
Proof.
  destruct (requests_are_the_task_request "s3cret" "https://dash/api/cron"
              "orders" (always (Resolves resp500)) 0)
    as (res & st' & Hrun & Hall).
  exists res, st'. split; [exact Hrun|].
  assert (Hin : In (Fetch (request "s3cret" "https://dash/api/cron" "orders"))
                   (trace st')).
  { injection Hrun as _ <-. left. reflexivity. }
  split; [exact Hin|].
  destruct (Hall _ Hin) as (_ & _ & _ & Hauth & _). exact Hauth.
Defined.

(** X2.  The waits of a run are the back-off delays in order, 2 s then 4 s, one
    between two consecutive requests: a run of [n] requests waits [n - 1]
    times, and never after its last request. *)
Theorem waits_are_the_backoff_delays :
  forall (secret url label : string) (net : Z -> FetchOutcome) (c : Z),
  exists res st',
    postWithRetry secret url label net c = Some (res, st') /\
    sleeps (trace st') = firstn (requests (trace st') - 1) [2000; 4000] /\
    S (waits (trace st')) = requests (trace st') /\
    is_sleep (last (trace st') (Sleep 0)) = false.
Proof.
  intros secret url label net c.
  run_cases secret url label net c Hrun;
    (eexists; eexists; split; [exact Hrun|]);
    cbn [trace app]; try (destruct (_ >=? _));
    repeat split.
Qed.

(** X3.  The time a run can take is bounded: with [n] requests, each under its
    time-out of 30 s, and the waits between them, the time-outs and the
    waits add up to [30000 * n + (2^n - 2) * 1000] ms, at most 96 s.  As
    numbers of the program, that is below the interval of the orders task
    and below the default delay of the members task. *)
Theorem run_time_budget :
  forall (secret url label : string) (net : Z -> FetchOutcome) (c : Z),
  exists res st',
    postWithRetry secret url label net c = Some (res, st') /\
    let n := Z.of_nat (requests (trace st')) in
    budget (trace st') = FETCH_TIMEOUT_MS * n + (2 ^ n - 2) * 1000 /\
    budget (trace st') <= 96000 /\
    Js.gtb ORDERS_INTERVAL (Js.lit (budget (trace st'))) = true /\
    Js.gtb DEFAULT_MEMBERS_INTERVAL (Js.lit (budget (trace st'))) = true.
Proof.
  intros secret url label net c.
  run_cases secret url label net c Hrun;
    (eexists; eexists; split; [exact Hrun|]);
    cbn [trace app]; try (destruct (_ >=? _));
    (split; [reflexivity|]);
    (split; [vm_compute; discriminate|]);
    split; vm_compute; reflexivity.
Qed.

(** X4.  A run that succeeds returns the parsed body of its last request, which
    had a successful status; the counter is 0, and the executor has
    written nothing to the console after that request. *)
Theorem success_returns_last_body :
  forall (secret url label : string) (net : Z -> FetchOutcome) (c : Z)
         (res : SyncResult) (st' : St),
    postWithRetry secret url label net c = Some (res, st') ->
    res_ok res = true ->
    exists r data,
      net (Z.of_nat (requests (trace st'))) = Resolves r /\
      ok r = true /\
      json r = Some data /\
      res_data res = Some data /\
      count st' = 0 /\
      last (trace st') (Sleep 0) = Fetch (request secret url label).
Proof.
  intros secret url label net c res st' H Hres.
  pose proof (run_requests secret url label net c res st' H) as Hreq.
  rewrite Hreq.
  run_cases secret url label net c Hrun;
    rewrite Hrun in H; injection H as <- <-; try discriminate Hres;
    exists r, data; repeat split; assumption.
Qed.

Lemma success_returns_last_body_witness :
  let data := Js.Obj [("nextCheckInSeconds", Js.Num (Js.lit 42))] in
  let net := script [Rejects TimedOut] (Resolves (resp200 data)) in
  exists st',
    postWithRetry "s3cret" "https://dash/api/members" "members" net 7
    = Some ({| res_ok := true; res_data := Some data |}, st') /\
    exists r, net (Z.of_nat (requests (trace st'))) = Resolves r /\
              json r = Some data.
Proof.
  intros data net. eexists. split; [reflexivity|].
  destruct (success_returns_last_body "s3cret" "https://dash/api/members"
              "members" net 7 _ _ eq_refl eq_refl)
    as (r & d & Hn & _ & Hj & Hd & _).
  exists r. split; [exact Hn|]. simpl in Hd. congruence.
Defined.

(** X5.  A run fails only when it is decided: its last request got a status of
    the non-retryable set, or it was the third request.  The failure
    carries no data, and the counter is then the old counter plus 1, or 1
    (when an earlier answer of the sequence had reset it); starting from a
    counter that is not negative, it is at least 1. *)
Theorem failure_is_decided :
  forall (secret url label : string) (net : Z -> FetchOutcome) (c : Z)
         (res : SyncResult) (st' : St),
    postWithRetry secret url label net c = Some (res, st') ->
    res_ok res = false ->
    res = failure /\
    (requests (trace st') = 3%nat \/
     exists r, net (Z.of_nat (requests (trace st'))) = Resolves r /\
               ok r = false /\ non_retryable (status r) = true) /\
    (count st' = c + 1 \/ count st' = 1) /\
    (0 <= c -> 1 <= count st').
Proof.
  intros secret url label net c res st' H Hres.
  pose proof (run_requests secret url label net c res st' H) as Hreq.
  rewrite Hreq.
  assert (Hcnt : forall o x, x = c \/ x = 0 ->
                 count_after_try o x = c \/ count_after_try o x = 0).
  { intros o x Hx. unfold count_after_try.
    destruct o as [|r0]; [exact Hx|]. destruct (ok r0); auto. }
  run_cases secret url label net c Hrun;
    rewrite Hrun in H; injection H as <- <-; try discriminate Hres;
    cbn [count trace app];
    (split; [reflexivity|]);
    (split;
     [first [ left; destruct (_ >=? _); reflexivity
            | right; exists r; repeat split; assumption ]|]);
    try (specialize (Hcnt (net (decisive net)) _ Hcount));
    split; lia.
Qed.

Lemma failure_is_decided_witness :
  let net := script [Resolves resp500] (Resolves resp401) in
  exists st',
    postWithRetry "s3cret" "https://dash/api/cron" "orders" net 6
    = Some (failure, st') /\
    requests (trace st') = 2%nat /\
    count st' = 7.
Proof.
  intros net. eexists. split; [reflexivity|].
  destruct (failure_is_decided "s3cret" "https://dash/api/cron" "orders"
              net 6 _ _ eq_refl eq_refl)
    as (_ & _ & _ & Hpos).
  split; reflexivity.
Defined.

(** X6.  The escalated warning is sound: a run writes it at most once, as its
    last effect, for its own task, only when it failed on its third
    request, and the number it gives is the counter after the run, which
    is then at least 5.  Never on a success, never below the threshold. *)
Theorem warning_is_sound :
  forall (secret url label : string) (net : Z -> FetchOutcome) (c : Z)
         (res : SyncResult) (st' : St) (l : string) (n : Z),
    postWithRetry secret url label net c = Some (res, st') ->
    In (ConsoleError (WarningLine l n)) (trace st') ->
    l = label /\
    n = count st' /\
    CONSECUTIVE_FAILURE_THRESHOLD <= n /\
    res = failure /\
    requests (trace st') = 3%nat /\
    last (trace st') (Sleep 0) = ConsoleError (WarningLine l n) /\
    List.length (filter is_warning (trace st')) = 1%nat.
Proof.
  intros secret url label net c res st' l n H Hin.
  run_cases secret url label net c Hrun;
    rewrite Hrun in H; injection H as <- <-;
    cbn [count trace app] in *;
    try (destruct (_ >=? _) eqn:Hge);
    simpl in Hin;
    repeat (destruct Hin as [Hin|Hin]; [try discriminate Hin|]);
    try contradiction.
  injection Hin as <- <-.
  apply Z.geb_le in Hge.
  repeat split; exact Hge.
Qed.

Lemma warning_is_sound_witness :
  let net := always (Rejects TimedOut) in
  exists st',
    postWithRetry "s3cret" "https://dash/api/cron" "orders" net 4
    = Some (failure, st') /\
    In (ConsoleError (WarningLine "orders" 5)) (trace st') /\
    count st' = 5.
Proof.
  intros net. eexists. split; [reflexivity|].
  assert (Hin : In (ConsoleError (WarningLine "orders" 5))
                   (trace {| count := 5;
                             trace :=
                               [] ++
                               [Fetch (request "s3cret" "https://dash/api/cron" "orders");
                                ConsoleError (RetryLine "orders" 1 MAX_RETRIES 2 (FetchRejected TimedOut));
                                Sleep 2000;
                                Fetch (request "s3cret" "https://dash/api/cron" "orders");
                                ConsoleError (RetryLine "orders" 2 MAX_RETRIES 4 (FetchRejected TimedOut));
                                Sleep 4000;
                                Fetch (request "s3cret" "https://dash/api/cron" "orders");
                                ConsoleError (ExhaustedLine "orders" MAX_RETRIES (FetchRejected TimedOut));
                                ConsoleError (WarningLine "orders" 5)] |})).
  { simpl. do 8 right. left. reflexivity. }
  split; [exact Hin|].
  destruct (warning_is_sound "s3cret" "https://dash/api/cron" "orders"
              net 4 failure _ "orders" 5 eq_refl Hin)
    as (_ & Hn & _).
  symmetry. exact Hn.
Defined.

(** The executor arms no timer and writes no line of success. *)
Lemma run_quiet secret url label net c res st' :
  postWithRetry secret url label net c = Some (res, st') ->
  existsb is_set_timeout (trace st') = false /\
  existsb is_synced_line (trace st') = false.
Proof.
  intros H.
  run_cases secret url label net c Hrun;
    rewrite Hrun in H; injection H as _ <-; cbn [trace app];
    try (destruct (_ >=? _)); split; reflexivity.
Qed.

(** After a success the counter is 0; after a failure it is the old
    counter plus 1, or 1. *)
Lemma run_result_counter secret url label net c res st' :
  postWithRetry secret url label net c = Some (res, st') ->
  (res_ok res = true -> count st' = 0) /\
  (res_ok res = false -> count st' = c + 1 \/ count st' = 1).
Proof.
  intros H.
  assert (Hcnt : forall o x, x = c \/ x = 0 ->
                 count_after_try o x = c \/ count_after_try o x = 0).
  { intros o x Hx. unfold count_after_try.
    destruct o as [|r0]; [exact Hx|]. destruct (ok r0); auto. }
  run_cases secret url label net c Hrun;
    rewrite Hrun in H; injection H as <- <-; cbn [count res_ok];
    try (specialize (Hcnt (net (decisive net)) _ Hcount));
    (split; [intros Hres; try discriminate Hres; reflexivity
            |intros Hres; try discriminate Hres; lia]).
Qed.

Lemma existsb_snoc {A} (f : A -> bool) l a :
  existsb f (l ++ [a]) = existsb f l || f a.
Proof. rewrite existsb_app. simpl. rewrite orb_false_r. reflexivity. Qed.

(** ** The fixed scheduler: [syncOrders] *)

(** X7.  An invocation of [syncOrders] always completes.  It leaves the counter
    as the executor left it and arms no timer.  Its only own effect is the
    line of success, written last and exactly when the run succeeded;
    starting from a counter that is not negative, that is exactly when the
    counter is 0 afterwards. *)
Theorem syncOrders_outcome :
  forall (secret url : string) (net : Z -> FetchOutcome) (c : Z),
  exists res st0 st,
    postWithRetry secret url "orders" net c = Some (res, st0) /\
    syncOrders secret url net c = Some st /\
    count st = count st0 /\
    existsb is_set_timeout (trace st) = false /\
    trace st =
    trace st0 ++ (if res_ok res then [ConsoleLog OrdersSyncedLine] else []) /\
    existsb is_synced_line (trace st) = res_ok res /\
    (0 <= c -> (res_ok res = true <-> count st = 0)).
Proof.
  intros secret url net c.
  destruct (loop_total secret url "orders" net (S (Z.to_nat MAX_RETRIES)) 1
              {| count := c; trace := [] |}) as [[res st0] H];
    [lia|unfold MAX_RETRIES; lia|].
  change (postWithRetry secret url "orders" net c = Some (res, st0)) in H.
  destruct (run_quiet _ _ _ _ _ _ _ H) as [Hq1 Hq2].
  exists res, st0. unfold syncOrders. rewrite H.
  eexists. split; [reflexivity|]. split; [reflexivity|].
  destruct (res_ok res) eqn:Hres.
  - pose proof (proj1 (run_result_counter _ _ _ _ _ _ _ H) Hres) as Hzero.
    cbn [emit count trace].
    split; [reflexivity|].
    split; [rewrite existsb_snoc, Hq1; reflexivity|].
    split; [reflexivity|].
    split; [rewrite existsb_snoc, Hq2; reflexivity|].
    intros _. split; [intros _; exact Hzero|reflexivity].
  - pose proof (proj2 (run_result_counter _ _ _ _ _ _ _ H) Hres) as Hpos.
    split; [reflexivity|]. split; [exact Hq1|].
    split; [rewrite app_nil_r; reflexivity|].
    split; [exact Hq2|].
    intros Hc. split; [discriminate|lia].
Qed.

Lemma syncOrders_outcome_witness :
  let net := script [Rejects TimedOut] (Resolves (resp200 Js.Null)) in
  exists st,
    syncOrders "s3cret" "https://dash/api/cron" net 3 = Some st /\
    0 <= 3 /\
    count st = 0 /\
    last (trace st) (Sleep 0) = ConsoleLog OrdersSyncedLine.
Proof.
  intros net.
  destruct (syncOrders_outcome "s3cret" "https://dash/api/cron" net 3)
    as (res & st0 & st & Hrun & Hsync & _ & _ & Htrace & _ & Hiff).
  exists st. split; [exact Hsync|].
  assert (Hc : 0 <= 3) by lia. split; [exact Hc|].
  injection Hrun as <- <-.
  split; [exact (proj1 (Hiff Hc) eq_refl)|].
  rewrite Htrace. reflexivity.
Defined.

(** ** Sequences of invocations on the shared counter *)

Lemma all_retryable_made net k :
  all_retryable net -> k <= MAX_RETRIES -> made net k.
Proof.
  intros Hall Hk j Hj.
  destruct (retryable_caught (net j)) as (err & Hc & _);
    [apply Hall; lia|congruence].
Qed.

(** An invocation of which every try is a retryable failure. *)
Lemma exhausted_orders_cycle secret url net c :
  all_retryable net ->
  exists tr,
    syncOrders secret url net c =
    Some {| count := c + 1;
            trace := tr ++
              (if c + 1 >=? CONSECUTIVE_FAILURE_THRESHOLD
               then [ConsoleError (WarningLine "orders" (c + 1))]
               else []) |} /\
    requests tr = 3%nat /\
    filter is_warning tr = [].
Proof.
  intros Hall.
  assert (H3 : 1 <= MAX_RETRIES <= MAX_RETRIES) by (unfold MAX_RETRIES; lia).
  pose proof (all_retryable_made net MAX_RETRIES Hall (Z.le_refl _)) as Hmade.
  destruct (retryable_caught (net MAX_RETRIES)) as (err & Hc & Hsame);
    [apply Hall; exact H3|].
  unfold syncOrders.
  rewrite (run_from secret url "orders" net c MAX_RETRIES H3 Hmade).
  rewrite (loop_exhausted _ _ _ _ _ _ err Hc). cbn zeta.
  rewrite Hsame.
  rewrite (entering_count secret url "orders" net c
             (Z.to_nat (MAX_RETRIES - 1)))
    by (intros j Hj; apply Hall; unfold MAX_RETRIES in *; lia).
  destruct (enter_shape secret url "orders" net c MAX_RETRIES H3 Hmade)
    as [[Hd _]|[[Hd _]|[_ (e1 & e2 & Hshape)]]];
    try (unfold MAX_RETRIES in Hd; discriminate Hd).
  rewrite Hshape. cbn [res_ok failure].
  eexists. split; [|split].
  - f_equal. f_equal. cbn [trace]. rewrite app_assoc. reflexivity.
  - reflexivity.
  - reflexivity.
Qed.

Lemma warnings_app tr1 tr2 :
  List.length (filter is_warning (tr1 ++ tr2)) =
  (List.length (filter is_warning tr1) +
   List.length (filter is_warning tr2))%nat.
Proof. rewrite filter_app, length_app. reflexivity. Qed.

Lemma failing_cycles secret url nets :
  Forall all_retryable nets ->
  forall c done,
  exists st,
    orders_cycles secret url nets c done = Some st /\
    count st = c + Z.of_nat (List.length nets) /\
    Z.of_nat (List.length (filter is_warning (trace st))) =
    Z.of_nat (List.length (filter is_warning done)) +
    (Z.max 0 (c + Z.of_nat (List.length nets) - 4) - Z.max 0 (c - 4)) /\
    requests (trace st) = (requests done + 3 * List.length nets)%nat.
Proof.
  induction 1 as [|net nets Hnet _ IH]; intros c done.
  - eexists. split; [reflexivity|]. cbn [count trace List.length].
    split; [lia|]. split; lia.
  - destruct (exhausted_orders_cycle secret url net c Hnet)
      as (tr & Hsync & Hreq & Hwarn).
    cbn [orders_cycles]. rewrite Hsync. cbn [count trace].
    destruct (IH (c + 1)
                (done ++ tr ++
                 (if c + 1 >=? CONSECUTIVE_FAILURE_THRESHOLD
                  then [ConsoleError (WarningLine "orders" (c + 1))]
                  else [])))
      as (st & Hrun & Hcount & Hw & Hr).
    exists st. split; [exact Hrun|].
    cbn [List.length]. split; [lia|]. split.
    + rewrite Hw, !warnings_app, Hwarn.
      unfold CONSECUTIVE_FAILURE_THRESHOLD.
      destruct (c + 1 >=? 5) eqn:Hge;
        [apply Z.geb_le in Hge|rewrite Z.geb_leb in Hge;
                                apply Z.leb_gt in Hge];
        cbn [List.length filter is_warning]; lia.
    + rewrite Hr, !requests_app, Hreq.
      destruct (_ >=? _); unfold requests; simpl; lia.
Qed.

(** X8.  When [n] invocations in a row fail with every try a retryable
    failure, the counter goes from [c] to [c + n], each invocation sends
    three requests, and the escalated warning is written by exactly the
    invocations that bring the counter to 5 or more: the number of
    warnings is the number of values above 4 among [c + 1 .. c + n]. *)
Theorem failing_cycles_escalate :
  forall (secret url : string) (nets : list (Z -> FetchOutcome)) (c : Z),
    Forall all_retryable nets ->
    let n := Z.of_nat (List.length nets) in
    exists st,
      orders_cycles secret url nets c [] = Some st /\
      count st = c + n /\
      Z.of_nat (List.length (filter is_warning (trace st))) =
      Z.max 0 (c + n - 4) - Z.max 0 (c - 4) /\
      Z.of_nat (requests (trace st)) = 3 * n.
Proof.
  intros secret url nets c Hall n.
  destruct (failing_cycles secret url nets Hall c [])
    as (st & Hrun & Hcount & Hw & Hr).
  exists st. split; [exact Hrun|]. split; [exact Hcount|].
  split; [rewrite Hw; simpl; lia|].
  rewrite Hr. change (requests []) with 0%nat. unfold n. lia.
Qed.

Lemma failing_cycles_escalate_witness :
  let down := always (Rejects (NetworkError "fetch failed")) in
  let nets := [down; down; down; down; down; down] in
  Forall all_retryable nets /\
  exists st,
    orders_cycles "s3cret" "https://dash/api/cron" nets 0 [] = Some st /\
    count st = 6 /\
    List.length (filter is_warning (trace st)) = 2%nat.
Proof.
  intros down nets.
  assert (Hall : Forall all_retryable nets).
  { repeat constructor; intros j Hj; reflexivity. }
  split; [exact Hall|].
  destruct (failing_cycles_escalate "s3cret" "https://dash/api/cron"
              nets 0 Hall) as (st & Hrun & Hcount & Hw & _).
  exists st. split; [exact Hrun|]. split; [exact Hcount|].
  apply Nat2Z.inj. rewrite Hw. reflexivity.
Defined.

Lemma syncOrders_total secret url net c :
  exists st, syncOrders secret url net c = Some st.
Proof.
  destruct (loop_total secret url "orders" net (S (Z.to_nat MAX_RETRIES)) 1
              {| count := c; trace := [] |}) as [[res st0] H];
    [lia|unfold MAX_RETRIES; lia|].
  unfold syncOrders, postWithRetry. rewrite H. eauto.
Qed.

Lemma orders_cycles_total secret url nets :
  forall c done, exists st, orders_cycles secret url nets c done = Some st.
Proof.
  induction nets as [|net nets IH]; intros c done; [simpl; eauto|].
  destruct (syncOrders_total secret url net c) as [st Hst].
  cbn [orders_cycles]. rewrite Hst. apply IH.
Qed.

(** One more invocation after a sequence of invocations. *)
Lemma orders_cycles_snoc secret url net nets :
  forall c done,
    orders_cycles secret url (nets ++ [net]) c done =
    match orders_cycles secret url nets c done with
    | Some st =>
      match syncOrders secret url net (count st) with
      | Some st2 =>
        Some {| count := count st2; trace := trace st ++ trace st2 |}
      | None => None
      end
    | None => None
    end.
Proof.
  induction nets as [|n0 nets IH]; intros c done.
  - cbn [app orders_cycles count trace].
    destruct (syncOrders secret url net c); reflexivity.
  - cbn [app orders_cycles].
    destruct (syncOrders secret url n0 c) as [st|]; [apply IH|reflexivity].
Qed.

(** X9.  A success forgets the history: whatever invocations came before, and
    whatever counter they left, an invocation in which some try is made
    and gets a successful status with a body that parses leaves the
    counter at 0 and ends with the line of success. *)
Theorem success_forgets_history :
  forall (secret url : string) (nets : list (Z -> FetchOutcome))
         (net : Z -> FetchOutcome) (c k : Z) (r : Response) (data : Js.val),
    1 <= k <= MAX_RETRIES ->
    made net k ->
    net k = Resolves r ->
    ok r = true ->
    json r = Some data ->
    exists st,
      orders_cycles secret url (nets ++ [net]) c [] = Some st /\
      count st = 0 /\
      last (trace st) (Sleep 0) = ConsoleLog OrdersSyncedLine.
Proof.
  intros secret url nets net c k r data Hk Hmade Hn Hok Hj.
  rewrite orders_cycles_snoc.
  destruct (orders_cycles_total secret url nets c []) as [st1 H1].
  rewrite H1. unfold syncOrders.
  rewrite (run_from secret url "orders" net (count st1) k Hk Hmade).
  rewrite (loop_success _ _ _ _ _ _ _ r data) by (lia || assumption).
  cbn [res_ok emit count trace].
  eexists. split; [reflexivity|]. cbn [count trace].
  split; [reflexivity|].
  rewrite !app_assoc. apply last_last.
Qed.

Lemma success_forgets_history_witness :
  let down := always (Rejects TimedOut) in
  let up := script [Resolves resp500] (Resolves (resp200 (Js.Obj []))) in
  1 <= 2 <= MAX_RETRIES /\
  made up 2 /\
  up 2 = Resolves (resp200 (Js.Obj [])) /\
  ok (resp200 (Js.Obj [])) = true /\
  json (resp200 (Js.Obj [])) = Some (Js.Obj []) /\
  exists st,
    orders_cycles "s3cret" "https://dash/api/cron"
                  ([down; down; down; down; down] ++ [up]) 0 [] = Some st /\
    count st = 0.
Proof.
  intros down up.
  assert (Hk : 1 <= 2 <= MAX_RETRIES) by (unfold MAX_RETRIES; lia).
  assert (Hmade : made up 2).
  { intros j Hj. assert (j = 1) as -> by lia. discriminate. }
  split; [exact Hk|]. split; [exact Hmade|].
  split; [reflexivity|]. split; [reflexivity|]. split; [reflexivity|].
  destruct (success_forgets_history "s3cret" "https://dash/api/cron"
              [down; down; down; down; down] up 0 2
              (resp200 (Js.Obj [])) (Js.Obj [])
              Hk Hmade eq_refl eq_refl eq_refl)
    as (st & Hrun & Hcount & _).
  exists st. split; [exact Hrun|exact Hcount].
Defined.

(** ** More on the adaptive scheduler *)

Lemma requests_snoc tr e :
  is_fetch e = false -> requests (tr ++ [e]) = requests tr.
Proof.
  intros H. rewrite requests_app. unfold requests at 2. simpl.
  rewrite H. simpl. lia.
Qed.

(** X10.  An invocation of [syncMembers] always completes and arms exactly one
    timer, as its last effect, after all its requests.  The line of
    success is written exactly when the result is a success whose data is
    truthy: a success whose body is [null], [false], [0] or the empty
    string resets the counter but writes no line. *)
Theorem syncMembers_arms_one_timer :
  forall (secret url : string) (net : Z -> FetchOutcome) (c : Z),
  exists result st0 st,
    postWithRetry secret url "members" net c = Some (result, st0) /\
    syncMembers secret url net c = Some st /\
    count st = count st0 /\
    List.length (filter is_set_timeout (trace st)) = 1%nat /\
    last (trace st) (Sleep 0) = SetTimeout (nextInterval result) /\
    requests (trace st) = requests (trace st0) /\
    (existsb is_synced_line (trace st) = true <->
     exists data,
       res_ok result = true /\ res_data result = Some data /\
       Js.truthy data = true).
Proof.
  intros secret url net c.
  destruct (loop_total secret url "members" net (S (Z.to_nat MAX_RETRIES)) 1
              {| count := c; trace := [] |}) as [[result st0] H];
    [lia|unfold MAX_RETRIES; lia|].
  change (postWithRetry secret url "members" net c = Some (result, st0)) in H.
  destruct (run_quiet _ _ _ _ _ _ _ H) as [Hq1 Hq2].
  assert (Hnone : filter is_set_timeout (trace st0) = []).
  { clear -Hq1. induction (trace st0) as [|e tr IH]; [reflexivity|].
    simpl in Hq1 |- *. destruct (is_set_timeout e); [discriminate|].
    apply IH. exact Hq1. }
  exists result, st0. unfold syncMembers. rewrite H.
  eexists. split; [reflexivity|]. split; [reflexivity|].
  unfold usable_data.
  destruct (res_ok result) eqn:Hok; [destruct (res_data result) as [d|] eqn:Hd;
    [destruct (Js.truthy d) eqn:Ht|]|];
    cbn [emit count trace];
    (split; [reflexivity|]);
    (split; [rewrite ?filter_app, ?length_app, Hnone; reflexivity|]);
    (split; [apply last_last|]);
    (split; [rewrite ?requests_snoc by reflexivity; reflexivity|]);
    rewrite ?existsb_snoc, Hq2; cbn [is_synced_line orb];
    split; intros Hx; try discriminate Hx; try reflexivity.
  - exists d. repeat split; assumption.
  - destruct Hx as (d' & _ & Hd' & Ht'). congruence.
  - destruct Hx as (d' & _ & Hd' & _). discriminate.
  - destruct Hx as (d' & Hok' & _). discriminate.
Qed.

Lemma syncMembers_arms_one_timer_witness :
  let net := always (Resolves (resp200 Js.Null)) in
  exists st,
    syncMembers "s3cret" "https://dash/api/members" net 2 = Some st /\
    count st = 0 /\
    existsb is_synced_line (trace st) = false.
Proof.
  intros net.
  destruct (syncMembers_arms_one_timer "s3cret" "https://dash/api/members"
              net 2)
    as (result & st0 & st & Hrun & Hsync & Hcount & _ & _ & _ & Hiff).
  exists st. split; [exact Hsync|].
  injection Hrun as <- <-.
  split; [exact Hcount|].
  destruct (existsb is_synced_line (trace st)) eqn:E; [|reflexivity].
  destruct (proj1 Hiff eq_refl) as (d & _ & Hd & Ht).
  injection Hd as <-. discriminate Ht.
Defined.

(** Rounding a non-negative mantissa keeps the sign it is given. *)
Lemma binary_round_aux_sign prec emax sx mx ex lx :
  0 <= mx ->
  match binary_round_aux prec emax sx mx ex lx with
  | S754_nan => False
  | S754_zero s | S754_infinity s | S754_finite s _ _ => s = sx
  end.
Proof.
  intros H. unfold binary_round_aux.
  pose proof (shr_fexp_nonneg prec emax mx ex lx H) as H1.
  destruct (shr_fexp prec emax mx ex lx) as [mrs1 e1]; simpl in H1.
  pose proof (shr_fexp_nonneg prec emax
                (round_nearest_even (shr_m mrs1) (loc_of_shr_record mrs1))
                e1 loc_Exact (round_nearest_even_nonneg _ _ H1)) as H2.
  destruct (shr_fexp prec emax _ e1 loc_Exact) as [mrs2 e2]; simpl in H2.
  destruct (shr_m mrs2) as [|m|m]; [reflexivity| |lia].
  destruct (e2 <=? emax - prec); reflexivity.
Qed.

(** X11.  The delay handed to [setTimeout] is never negative and never NaN: it
    is a zero, a finite number or an infinity whose sign bit is clear,
    whatever the result of the executor and whatever number the answer
    carries. *)
Theorem delay_is_never_negative :
  forall result : SyncResult,
    match nextInterval result with
    | S754_nan => False
    | S754_zero s | S754_infinity s | S754_finite s _ _ => s = false
    end /\
    Js.gtb (Js.lit 0) (nextInterval result) = false.
Proof.
  intros result.
  assert (Hsign : match nextInterval result with
                  | S754_nan => False
                  | S754_zero s | S754_infinity s | S754_finite s _ _ =>
                    s = false
                  end).
  { destruct (nextInterval_cases result)
      as [(data & x & _ & _ & _ & Hgt & ->) | ->].
    - destruct x as [s|s| |s m e]; try discriminate Hgt.
      + destruct s; [discriminate Hgt|reflexivity].
      + destruct s; [discriminate Hgt|].
        unfold Js.mul.
        change (Js.lit 1000)
          with (S754_finite false 8796093022208000%positive (-43)).
        cbn [SFmul xorb].
        apply binary_round_aux_sign. lia.
    - vm_compute. reflexivity. }
  split; [exact Hsign|].
  destruct (nextInterval result) as [s|s| |s m e];
    try contradiction; subst s; reflexivity.
Qed.

(** X12.  Only a JSON object can change the delay: when the delay is not the
    default, the result is a success whose data is an object in which the
    first property named [nextCheckInSeconds] is a number greater than 0.
    An array, a string, a number or [null] as the body gives the
    default. *)
Theorem only_an_object_changes_the_delay :
  forall result : SyncResult,
    nextInterval result <> DEFAULT_MEMBERS_INTERVAL ->
    exists props x,
      res_ok result = true /\
      res_data result = Some (Js.Obj props) /\
      Js.assoc "nextCheckInSeconds" props = Some (Js.Num x) /\
      Js.gtb x (Js.lit 0) = true /\
      nextInterval result = Js.mul x (Js.lit 1000).
Proof.
  intros result Hne.
  destruct (nextInterval_cases result)
    as [(data & x & Hok & Hd & Hg & Hgt & Hnext) | Hdef];
    [|contradiction].
  destruct data as [|b|y|s|items|props]; try discriminate Hg.
  exists props, x. repeat split; assumption.
Qed.

Lemma only_an_object_changes_the_delay_witness :
  let data := Js.Obj [("ok", Js.Bool true);
                      ("nextCheckInSeconds", Js.Num (Js.lit 90))] in
  let result := {| res_ok := true; res_data := Some data |} in
  nextInterval result <> DEFAULT_MEMBERS_INTERVAL /\
  exists props x,
    res_data result = Some (Js.Obj props) /\
    nextInterval result = Js.mul x (Js.lit 1000).
Proof.
  intros data result.
  assert (Hne : nextInterval result <> DEFAULT_MEMBERS_INTERVAL)
    by (vm_compute; discriminate).
  split; [exact Hne|].
  destruct (only_an_object_changes_the_delay result Hne)
    as (props & x & _ & Hd & _ & _ & Hnext).
  exists props, x. split; [exact Hd|exact Hnext].
Defined.

(** ** More on the process *)

Lemma not_set_is_set v : not_set v = false <-> is_set v.
Proof.
  unfold not_set, is_set. split.
  - destruct v as [s|]; [|discriminate].
    intros H. exists s. split; [reflexivity|].
    intros ->. discriminate H.
  - intros (s & -> & Hne). apply String.eqb_neq. exact Hne.
Qed.

(** X13.  The script goes on past its checks exactly when the three values are
    set to non-empty strings: a value set to the empty string counts as
    missing.  It then arms the interval of the orders task with 600000 ms
    and invokes both tasks at once.  Otherwise it writes exactly one
    message, even when several values are missing. *)
Theorem startup_runs_iff_configured :
  forall env : Env,
    (exit_code (startup env) = None <->
     is_set (env_CRON_SECRET env) /\ is_set (env_DASHBOARD_URL env) /\
     is_set (env_MEMBERS_URL env)) /\
    (exit_code (startup env) = None ->
     effects (startup env) =
     [PSetInterval Orders 0 (Js.lit 600000); PInvoke Orders; PInvoke Members]
     /\ timers (startup env) = [0%nat]) /\
    (exit_code (startup env) <> None ->
     exit_code (startup env) = Some 1 /\
     List.length (filter is_error (effects (startup env))) = 1%nat).
Proof.
  intros env. rewrite <- !not_set_is_set. unfold startup.
  destruct (not_set (env_CRON_SECRET env)).
  { split; [split; [discriminate|intros [H _]; discriminate H]|].
    split; [discriminate|]. intros _. split; reflexivity. }
  destruct (not_set (env_DASHBOARD_URL env)).
  { split; [split; [discriminate|intros (_ & H & _); discriminate H]|].
    split; [discriminate|]. intros _. split; reflexivity. }
  destruct (not_set (env_MEMBERS_URL env)).
  { split; [split; [discriminate|intros (_ & _ & H); discriminate H]|].
    split; [discriminate|]. intros _. split; reflexivity. }
  split; [split; [intros _; repeat split|reflexivity]|].
  split; [|intros H; contradiction H; reflexivity].
  intros _. split; [|reflexivity].
  vm_compute. reflexivity.
Qed.

Lemma startup_runs_iff_configured_witness :
  let env := {| env_DASHBOARD_URL := Some "https://dash/api/cron";
                env_MEMBERS_URL := Some "";
                env_CRON_SECRET := Some "s3cret" |} in
  exit_code (startup env) <> None /\
  exit_code (startup env) = Some 1 /\
  ~ is_set (env_MEMBERS_URL env).
Proof.
  intros env.
  assert (Hexit : exit_code (startup env) <> None) by discriminate.
  split; [exact Hexit|].
  destruct (startup_runs_iff_configured env) as (Hiff & _ & Hfail).
  split; [exact (proj1 (Hfail Hexit))|].
  intros Hset.
  assert (Hall : is_set (env_CRON_SECRET env) /\
                 is_set (env_DASHBOARD_URL env) /\
                 is_set (env_MEMBERS_URL env)).
  { split; [exists "s3cret"; split; [reflexivity|discriminate]|].
    split; [exists "https://dash/api/cron";
            split; [reflexivity|discriminate]|exact Hset]. }
  apply Hexit. exact (proj2 Hiff Hall).
Defined.

Lemma startup_scheduler env :
  exit_code (startup env) = None -> scheduler_state (startup env).
Proof.
  unfold startup.
  destruct (not_set (env_CRON_SECRET env)); [discriminate|].
  destruct (not_set (env_DASHBOARD_URL env)); [discriminate|].
  destruct (not_set (env_MEMBERS_URL env)); [discriminate|].
  intros _. unfold scheduler_state. cbn.
  split; [lia|]. split; [discriminate|]. left. repeat split.
Qed.

Lemma filter_snoc_length {A} (f : A -> bool) l a :
  List.length (filter f (l ++ [a])) =
  (List.length (filter f l) + (if f a then 1 else 0))%nat.
Proof.
  rewrite filter_app, length_app. simpl. destruct (f a); reflexivity.
Qed.

Lemma has_timer_single i o : has_timer i [o] = Nat.eqb i o.
Proof. unfold has_timer. simpl. apply orb_false_r. Qed.

(** A turn of the event loop keeps the state of the schedulers, as long
    as the process runs. *)
Lemma step_scheduler p ev :
  scheduler_state p -> exit_code (step p ev) = None ->
  scheduler_state (step p ev).
Proof.
  intros Hkeep. pose proof Hkeep as (Ho & Hm & Hstate). unfold step.
  destruct (exit_code p) eqn:Hexit; [intros _; exact Hkeep|].
  destruct ev as [s|reason|error| | |next]; try discriminate; intros _.
  - destruct (has_timer (ordersIntervalId p) (timers p)); [|exact Hkeep].
    unfold scheduler_state.
    cbn [ordersIntervalId next_id membersTimeoutId members_running timers
         effects].
    rewrite !filter_snoc_length. cbn [is_members_invoke is_members_timeout].
    rewrite !Nat.add_0_r. exact Hkeep.
  - destruct Hstate as [(Hrun & Ht & Hn)|(Hrun & (i & Hi & Ht) & Hn)].
    + assert (Hno : forall i, membersTimeoutId p = Some i ->
                              has_timer i (timers p) = false).
      { intros i Hi. pose proof (Hm i Hi) as Hio.
        rewrite Ht, has_timer_single. apply Nat.eqb_neq. lia. }
      destruct (membersTimeoutId p) as [i|]; [|exact Hkeep].
      rewrite (Hno i eq_refl). exact Hkeep.
    + pose proof (Hm i Hi) as Hio. rewrite Hi, Ht.
      unfold has_timer. cbn [existsb]. rewrite Nat.eqb_refl. cbn [orb].
      unfold scheduler_state.
      cbn [ordersIntervalId next_id membersTimeoutId members_running timers
           effects remove].
      destruct (Nat.eq_dec i i) as [_|Hne]; [|contradiction].
      destruct (Nat.eq_dec i (ordersIntervalId p)) as [Heq|_]; [lia|].
      rewrite !filter_snoc_length.
      cbn [is_members_invoke is_members_timeout].
      split; [exact Ho|].
      split; [intros j Hj; injection Hj as <-; exact Hio|].
      left. repeat split. lia.
  - destruct Hstate as [(Hrun & Ht & Hn)|(Hrun & Hrest)].
    + rewrite Hrun. unfold scheduler_state.
      cbn [ordersIntervalId next_id membersTimeoutId members_running timers
           effects].
      rewrite !filter_snoc_length.
      cbn [is_members_invoke is_members_timeout].
      split; [lia|]. split; [intros i Hi; injection Hi as <-; lia|].
      right. split; [reflexivity|]. split; [|lia].
      exists (next_id p). rewrite Ht. split; reflexivity.
    + rewrite Hrun. exact Hkeep.
Qed.

Lemma run_scheduler env evs :
  exit_code (run (startup env) evs) = None ->
  scheduler_state (run (startup env) evs).
Proof.
  induction evs as [|ev evs IH] using rev_ind; intros H.
  - apply startup_scheduler. exact H.
  - rewrite run_snoc in H |- *.
    apply step_scheduler; [|exact H].
    apply IH. rewrite <- run_snoc in H. exact (run_running _ _ _ H).
Qed.

(** X14.  The fixed scheduler does not depend on any outcome: as long as the
    process runs, whatever happened before, the interval of the orders
    task is armed, and its next tick invokes [syncOrders] and nothing
    else, leaving the timers as they are. *)
Theorem orders_interval_stays_armed :
  forall (env : Env) (evs : list ProcEvent),
    let p := run (startup env) evs in
    exit_code p = None ->
    In (ordersIntervalId p) (timers p) /\
    effects (step p EvOrdersTick) = effects p ++ [PInvoke Orders] /\
    timers (step p EvOrdersTick) = timers p /\
    exit_code (step p EvOrdersTick) = None.
Proof.
  intros env evs p Hrun.
  destruct (run_scheduler env evs Hrun) as (_ & _ & Hstate). fold p in Hstate.
  assert (Hin : In (ordersIntervalId p) (timers p)).
  { destruct Hstate as [(_ & -> & _)|(_ & (i & _ & ->) & _)];
      simpl; auto. }
  split; [exact Hin|].
  assert (Hhas : has_timer (ordersIntervalId p) (timers p) = true).
  { unfold has_timer. apply existsb_exists.
    exists (ordersIntervalId p). split; [exact Hin|apply Nat.eqb_refl]. }
  unfold step. rewrite Hrun, Hhas. repeat split.
Qed.

Lemma orders_interval_stays_armed_witness :
  let env := {| env_DASHBOARD_URL := Some "https://dash/api/cron";
                env_MEMBERS_URL := Some "https://dash/api/members";
                env_CRON_SECRET := Some "s3cret" |} in
  let evs := [EvMembersDone (Js.lit 42000); EvMembersTimer; EvOrdersTick;
              EvMembersDone (Js.lit 300000)] in
  let p := run (startup env) evs in
  exit_code p = None /\
  In (ordersIntervalId p) (timers p) /\
  effects (step p EvOrdersTick) = effects p ++ [PInvoke Orders].
Proof.
  intros env evs p.
  assert (Hrun : exit_code p = None) by reflexivity.
  split; [exact Hrun|].
  destruct (orders_interval_stays_armed env evs Hrun) as (Hin & Heff & _).
  split; [exact Hin|exact Heff].
Defined.

(** X15.  The adaptive scheduler is a chain: as long as the process runs,
    either an invocation of [syncMembers] is in progress and no time-out
    is pending, or none is in progress and exactly one time-out is
    pending, the one [membersTimeoutId] holds.  So invocations of
    [syncMembers] never overlap, and each completed invocation has armed
    exactly one time-out. *)
Theorem members_chain_never_overlaps :
  forall (env : Env) (evs : list ProcEvent),
    let p := run (startup env) evs in
    exit_code p = None ->
    ((members_running p = true /\
      timers p = [ordersIntervalId p] /\
      step p EvMembersTimer = p /\
      List.length (filter is_members_invoke (effects p)) =
      S (List.length (filter is_members_timeout (effects p)))) \/
     (members_running p = false /\
      (exists i, membersTimeoutId p = Some i /\
                 i <> ordersIntervalId p /\
                 timers p = [i; ordersIntervalId p]) /\
      (forall next, step p (EvMembersDone next) = p) /\
      List.length (filter is_members_invoke (effects p)) =
      List.length (filter is_members_timeout (effects p)))).
Proof.
  intros env evs p Hrun.
  destruct (run_scheduler env evs Hrun) as (Ho & Hm & Hstate).
  fold p in Ho, Hm, Hstate.
  destruct Hstate as [(Hr & Ht & Hn)|(Hr & (i & Hi & Ht) & Hn)].
  - left. repeat split; try assumption.
    unfold step. rewrite Hrun.
    destruct (membersTimeoutId p) as [i|] eqn:Hi; [|reflexivity].
    pose proof (Hm i eq_refl) as Hio.
    rewrite Ht, has_timer_single.
    replace (Nat.eqb i (ordersIntervalId p)) with false
      by (symmetry; apply Nat.eqb_neq; lia).
    reflexivity.
  - right. split; [exact Hr|]. split.
    + exists i. pose proof (Hm i Hi) as Hio.
      split; [exact Hi|]. split; [lia|exact Ht].
    + split; [|exact Hn].
      intros next. unfold step. rewrite Hrun, Hr. reflexivity.
Qed.

Lemma members_chain_never_overlaps_witness :
  let env := {| env_DASHBOARD_URL := Some "https://dash/api/cron";
                env_MEMBERS_URL := Some "https://dash/api/members";
                env_CRON_SECRET := Some "s3cret" |} in
  let evs := [EvMembersDone (Js.lit 42000); EvMembersTimer;
              EvMembersTimer; EvOrdersTick] in
  let p := run (startup env) evs in
  exit_code p = None /\
  members_running p = true /\
  timers p = [ordersIntervalId p] /\
  List.length (filter is_members_invoke (effects p)) = 2%nat.
Proof.
  intros env evs p.
  assert (Hrun : exit_code p = None) by reflexivity.
  split; [exact Hrun|].
  destruct (members_chain_never_overlaps env evs Hrun)
    as [(Hr & Ht & _ & _)|(Hr & _)].
  - split; [exact Hr|]. split; [exact Ht|reflexivity].
  - discriminate Hr.
Defined.

(** ** The earlier [syncOrders] *)

Ltac legacy_tries net :=
  let go k :=
    (let q := fresh "q" in let r := fresh "r" in
     let E := fresh "E" in let O := fresh "O" in
     destruct (net k) as [q|r] eqn:E; [|destruct (ok r) eqn:O]) in
  go 1; go 2; go 3.

Ltac refute_try H E E0 E1 O O0 O1 :=
  rewrite ?E, ?E0, ?E1 in H; simpl in H;
  rewrite ?O, ?O0, ?O1 in H; discriminate H.

(** X16.  The earlier [syncOrders] always returns.  It retries every failing
    outcome, whatever the status: it stops at the first try that gets a
    successful status, with the counter at 0 and the line of success;
    when none of its three tries does, it has sent three requests, waited
    2 s and 4 s, and incremented the counter by exactly 1, with the
    warning exactly when the counter has reached 5. *)
Theorem legacy_counter_rule :
  forall (secret url : string) (net : Z -> FetchOutcome) (c : Z),
  exists st,
    Legacy.syncOrders secret url net c = Some st /\
    (forall k,
        1 <= k <= MAX_RETRIES ->
        (forall j, 1 <= j < k -> answered_ok (net j) = false) ->
        answered_ok (net k) = true ->
        Legacy.count st = 0 /\
        Z.of_nat (Legacy.requests (Legacy.trace st)) = k /\
        Legacy.sleeps (Legacy.trace st) =
        firstn (Z.to_nat (k - 1)) [2000; 4000] /\
        Legacy.synced (Legacy.trace st) = true /\
        Legacy.warned (Legacy.trace st) = false) /\
    ((forall j, 1 <= j <= MAX_RETRIES -> answered_ok (net j) = false) ->
     Legacy.count st = c + 1 /\
     Legacy.requests (Legacy.trace st) = 3%nat /\
     Legacy.sleeps (Legacy.trace st) = [2000; 4000] /\
     Legacy.synced (Legacy.trace st) = false /\
     Legacy.warned (Legacy.trace st) =
     (c + 1 >=? CONSECUTIVE_FAILURE_THRESHOLD)).
Proof.
  intros secret url net c.
  unfold Legacy.syncOrders. change (S (Z.to_nat MAX_RETRIES)) with 4%nat.
  cbn [Legacy.loop]. unfold Legacy.on_catch.
  change (1 + 1) with 2. change (2 + 1) with 3. change (3 + 1) with 4.
  change (1 <=? MAX_RETRIES) with true. change (2 <=? MAX_RETRIES) with true.
  change (3 <=? MAX_RETRIES) with true. change (4 <=? MAX_RETRIES) with false.
  change (1 =? MAX_RETRIES) with false. change (2 =? MAX_RETRIES) with false.
  change (3 =? MAX_RETRIES) with true.
  cbv iota.
  legacy_tries net; cbn [negb]; cbv iota.
  all: eexists; (split; [reflexivity|]).
  all: unfold MAX_RETRIES.
  all: split;
    [intros k Hk Hprev Hgot;
     assert (Hcases : k = 1 \/ k = 2 \/ k = 3) by lia;
     destruct Hcases as [-> | [-> | ->]];
     try (refute_try Hgot E E0 E1 O O0 O1);
     try (pose proof (Hprev 1 ltac:(lia)) as H1;
          refute_try H1 E E0 E1 O O0 O1);
     try (pose proof (Hprev 2 ltac:(lia)) as H2;
          refute_try H2 E E0 E1 O O0 O1)
    |intros Hall;
     try (pose proof (Hall 1 ltac:(lia)) as H1;
          refute_try H1 E E0 E1 O O0 O1);
     try (pose proof (Hall 2 ltac:(lia)) as H2;
          refute_try H2 E E0 E1 O O0 O1);
     try (pose proof (Hall 3 ltac:(lia)) as H3;
          refute_try H3 E E0 E1 O O0 O1)].
  all: cbn [Legacy.count Legacy.trace Legacy.emit Legacy.set_count app].
  all: try (destruct (c + 1 >=? CONSECUTIVE_FAILURE_THRESHOLD); repeat split).
  all: repeat split.
Qed.

Lemma legacy_counter_rule_witness :
  let net := script [Resolves resp500; Resolves resp401]
                    (Resolves resp200_unparsable) in
  let bad := always (Resolves resp401) in
  (1 <= 3 <= MAX_RETRIES /\
   (forall j, 1 <= j < 3 -> answered_ok (net j) = false) /\
   answered_ok (net 3) = true /\
   exists st,
     Legacy.syncOrders "s3cret" "https://dash/api/cron" net 4 = Some st /\
     Legacy.count st = 0 /\
     Legacy.requests (Legacy.trace st) = 3%nat) /\
  ((forall j, 1 <= j <= MAX_RETRIES -> answered_ok (bad j) = false) /\
   exists st,
     Legacy.syncOrders "s3cret" "https://dash/api/cron" bad 4 = Some st /\
     Legacy.count st = 5 /\
     Legacy.requests (Legacy.trace st) = 3%nat /\
     Legacy.warned (Legacy.trace st) = true).
Proof.
  intros net bad. split.
  - assert (Hk : 1 <= 3 <= MAX_RETRIES) by (unfold MAX_RETRIES; lia).
    assert (Hprev : forall j, 1 <= j < 3 -> answered_ok (net j) = false).
    { intros j Hj. assert (Hj' : j = 1 \/ j = 2) by lia.
      destruct Hj' as [-> | ->]; reflexivity. }
    split; [exact Hk|]. split; [exact Hprev|]. split; [reflexivity|].
    destruct (legacy_counter_rule "s3cret" "https://dash/api/cron" net 4)
      as (st & Hrun & Hok & _).
    destruct (Hok 3 Hk Hprev eq_refl) as (Hc & Hr & _).
    exists st. split; [exact Hrun|]. split; [exact Hc|].
    apply Nat2Z.inj. exact Hr.
  - assert (Hall : forall j, 1 <= j <= MAX_RETRIES ->
                             answered_ok (bad j) = false)
      by (intros j Hj; reflexivity).
    split; [exact Hall|].
    destruct (legacy_counter_rule "s3cret" "https://dash/api/cron" bad 4)
      as (st & Hrun & _ & Hfail).
    destruct (Hfail Hall) as (Hc & Hr & _ & _ & Hw).
    exists st. split; [exact Hrun|]. split; [exact Hc|].
    split; [exact Hr|exact Hw].
Defined.

Ltac plain_try net Hplain k :=
  let P := fresh "P" in
  let q := fresh "q" in let r := fresh "r" in
  let E := fresh "E" in let O := fresh "O" in
  let J := fresh "J" in let N := fresh "N" in
  assert (P : plain (net k) = true)
    by (apply Hplain; unfold MAX_RETRIES; lia);
  destruct (net k) as [q|r] eqn:E;
  [|simpl in P; destruct (ok r) eqn:O;
    [destruct (json r) eqn:J; [|discriminate P]
    |destruct (non_retryable (status r)) eqn:N; [discriminate P|]]];
  clear P.

(** X17.  The executor does what the earlier [syncOrders] did on every sequence
    that has no status of the non-retryable set and no successful status
    with a body that does not parse: the same counter afterwards, the
    same number of requests, the same waits, the warning in the same
    cases, and a success exactly when the earlier version wrote its line
    of success. *)
Theorem executor_agrees_with_legacy :
  forall (secret url : string) (net : Z -> FetchOutcome) (c : Z),
    (forall j, 1 <= j <= MAX_RETRIES -> plain (net j) = true) ->
    exists res st old,
      postWithRetry secret url "orders" net c = Some (res, st) /\
      Legacy.syncOrders secret url net c = Some old /\
      count st = Legacy.count old /\
      requests (trace st) = Legacy.requests (Legacy.trace old) /\
      sleeps (trace st) = Legacy.sleeps (Legacy.trace old) /\
      existsb is_warning (trace st) = Legacy.warned (Legacy.trace old) /\
      res_ok res = Legacy.synced (Legacy.trace old).
Proof.
  intros secret url net c Hplain.
  unfold Legacy.syncOrders, postWithRetry.
  change (S (Z.to_nat MAX_RETRIES)) with 4%nat.
  cbn [Legacy.loop loop]. unfold Legacy.on_catch, on_catch.
  change (1 + 1) with 2. change (2 + 1) with 3. change (3 + 1) with 4.
  change (1 <=? MAX_RETRIES) with true. change (2 <=? MAX_RETRIES) with true.
  change (3 <=? MAX_RETRIES) with true. change (4 <=? MAX_RETRIES) with false.
  change (1 =? MAX_RETRIES) with false. change (2 =? MAX_RETRIES) with false.
  change (3 =? MAX_RETRIES) with true.
  cbv iota.
  plain_try net Hplain 1; plain_try net Hplain 2; plain_try net Hplain 3.
  all: cbn [negb]; cbv iota.
  all: eexists; eexists; eexists; (split; [reflexivity|]);
       (split; [reflexivity|]).
  all: cbn [count trace emit set_count
            Legacy.count Legacy.trace Legacy.emit Legacy.set_count app].
  all: try (destruct (c + 1 >=? CONSECUTIVE_FAILURE_THRESHOLD)).
  all: repeat split.
Qed.

Lemma executor_agrees_with_legacy_witness :
  let net := script [Rejects TimedOut; Resolves resp500]
                    (Resolves (resp200 (Js.Obj []))) in
  (forall j, 1 <= j <= MAX_RETRIES -> plain (net j) = true) /\
  exists res st old,
    postWithRetry "s3cret" "https://dash/api/cron" "orders" net 4
    = Some (res, st) /\
    Legacy.syncOrders "s3cret" "https://dash/api/cron" net 4 = Some old /\
    count st = Legacy.count old /\
    sleeps (trace st) = Legacy.sleeps (Legacy.trace old).
Proof.
  intros net.
  assert (Hplain : forall j, 1 <= j <= MAX_RETRIES -> plain (net j) = true).
  { intros j Hj. unfold MAX_RETRIES in Hj.
    assert (Hj' : j = 1 \/ j = 2 \/ j = 3) by lia.
    destruct Hj' as [-> | [-> | ->]]; reflexivity. }
  split; [exact Hplain|].
  destruct (executor_agrees_with_legacy "s3cret" "https://dash/api/cron"
              net 4 Hplain)
    as (res & st & old & Hrun & Hold & Hc & _ & Hs & _).
  exists res, st, old. repeat split; assumption.
Defined.
